(** * stylegenie: the video processor

    A shallow embedding of
    [video-processing-system/processing/video_processor.py]
    (class [VideoProcessor]) and the properties of its stream registry,
    per-frame effect chain and sink fan-out.

    Conventions.
    - A numpy array is a [shape] and its row-major [data]; [uint8]
      arithmetic has its wrap-around written out.
    - OpenCV and the torch model are external: they are taken as an
      interface ([OpenCV], [Models]) of fallible functions.
    - A Python exception is a value of [exn]; code that may raise returns
      a [result].
    - The registry is a [gmap] from stream ids to entries; the attributes
      [hls_process_<id>] and [dash_process_<id>] that the code creates with
      [setattr] are a [gmap] from attribute names to process handles.
    - Calls that leave the program (directories, subprocesses, pipes, the
      WebRTC hook, the capture handle) are recorded in a trace; whether a
      fallible one succeeds is decided by an oracle that sees the trace so
      far. *)

From Stdlib Require Import ZArith QArith.
From stdpp Require Import base option list gmap strings pretty.

Local Open Scope Z_scope.

(** ** Exceptions and results *)

Inductive exn :=
| cv2_error
| OverflowError
| IndexError
| RuntimeError
| OSError
| BrokenPipeError
| TimeoutExpired.

Inductive result (A : Type) :=
| Ok (a : A)
| Err (e : exn).
Arguments Ok {A} a.
Arguments Err {A} e.

#[global] Instance result_ret : MRet result := fun _ a => Ok a.
#[global] Instance result_bind : MBind result := fun _ _ f r =>
  match r with
  | Ok a => f a
  | Err e => Err e
  end.

(** ** numpy arrays *)

Record ndarray := { shape : list Z; data : list Z }.

(** [frame.tobytes()]: the row-major bytes. *)
Definition tobytes (a : ndarray) : list Z := data a.

(** [a + s] for an element [a] of a [uint8] array and a Python int [s] that
    [uint8] holds: the sum is a [uint8] again, so it wraps at 256. *)
Definition uint8_add (a s : Z) : Z := (a + s) mod 256.

(** [a % m] on [uint8], [m] a Python int that [uint8] holds. *)
Definition uint8_mod (a m : Z) : Z := a mod m.

(** The new value of one hue element: [(h + hue_shift) % 180] as numpy
    computes it on [uint8]. *)
Definition hue_element (hue_shift h : Z) : Z :=
  uint8_mod (uint8_add h hue_shift) 180.

(** Whether the element at row-major position [i] belongs to [a[:,:,0]],
    for an array whose third axis has size [c] and whose axes after the
    third have [inner] elements in all. *)
Definition in_channel0 (c inner : Z) (i : nat) : bool :=
  (Z.of_nat i / inner) mod c =? 0.

(** Line 215: [hsv[:,:,0] = (hsv[:,:,0] + hue_shift) % 180].
    - [hsv[:,:,0]] needs three axes and a non-empty third one
      ([IndexError] otherwise).
    - A Python int outside [0..255] does not convert to [uint8]: numpy
      raises [OverflowError] (NumPy 2; older releases widen the result
      instead, a case no statement below relies on). *)
Definition rotate_hue (hsv : ndarray) (hue_shift : Z) : result ndarray :=
  match shape hsv with
  | _ :: _ :: c :: rest =>
      if c =? 0 then Err IndexError
      else if (0 <=? hue_shift) && (hue_shift <=? 255) then
        Ok {| shape := shape hsv;
              data := imap (fun i x =>
                              if in_channel0 c (foldr Z.mul 1 rest) i
                              then hue_element hue_shift x else x)
                           (data hsv) |}
      else Err OverflowError
  | _ => Err IndexError
  end.

(** ** External libraries *)

Inductive color_code :=
| COLOR_BGR2GRAY
| COLOR_GRAY2BGR
| COLOR_BGR2HSV
| COLOR_HSV2BGR.

(** The OpenCV functions the processor calls. Each returns a new array and
    leaves its argument as it is. *)
Class OpenCV := {
  GaussianBlur : ndarray -> Z * Z -> Z -> result ndarray;
  cvtColor : ndarray -> color_code -> result ndarray;
  Canny : ndarray -> Z -> Z -> result ndarray;
  imencode_jpg : ndarray -> Z -> result (list Z);
}.

(** [self.models]: the only key the code uses is ['enhancement']. The value
    stands for the body of the [try] of [apply_ml_enhancement] run with the
    loaded model (tensor conversion, forward pass, clipping). *)
Record Models := { enhancement : option (ndarray -> result ndarray) }.

(** ** Configuration *)

Record BlurConfig := { blur_enabled : bool; kernel_size : Z }.
Record EdgeConfig := { edge_enabled : bool; threshold1 : Z; threshold2 : Z }.
Record ColorConfig := { color_enabled : bool; hue_shift : Z }.
Record MlConfig := { ml_enabled : bool; model : string }.

Record ProcessingEffects := {
  blur : BlurConfig;
  edge_detection : EdgeConfig;
  color_filter : ColorConfig;
  ml_enhancement : MlConfig;
}.

Record Streaming := {
  webrtc_bitrate : Z;
  hls_segment_duration : Z;
  dash_segment_duration : Z;
}.

Record Config := {
  processing_effects : ProcessingEffects;
  streaming : Streaming;
}.

(** [default_config] of [load_config]. *)
Definition default_config : Config :=
  {| processing_effects :=
       {| blur := {| blur_enabled := false; kernel_size := 15 |};
          edge_detection :=
            {| edge_enabled := false; threshold1 := 100; threshold2 := 200 |};
          color_filter := {| color_enabled := false; hue_shift := 0 |};
          ml_enhancement := {| ml_enabled := false; model := "esrgan" |} |};
     streaming :=
       {| webrtc_bitrate := 2000000;
          hls_segment_duration := 6;
          dash_segment_duration := 4 |} |}.

(** ** The effect chain on array values *)

Section EffectChain.
Context `{OpenCV}.
Variable config : Config.
Variable models : Models.

(** Lines 203-204. *)
Definition blur_stage (processed_frame : ndarray) : result ndarray :=
  let kernel_size := kernel_size (blur (processing_effects config)) in
  GaussianBlur processed_frame (kernel_size, kernel_size) 0.

(** Lines 207-211. *)
Definition edge_stage (processed_frame : ndarray) : result ndarray :=
  let effects_config := processing_effects config in
  gray ← cvtColor processed_frame COLOR_BGR2GRAY;
  edges ← Canny gray (threshold1 (edge_detection effects_config))
                     (threshold2 (edge_detection effects_config));
  cvtColor edges COLOR_GRAY2BGR.

(** Lines 214-216. *)
Definition color_stage (processed_frame : ndarray) : result ndarray :=
  let effects_config := processing_effects config in
  hsv ← cvtColor processed_frame COLOR_BGR2HSV;
  hsv ← rotate_hue hsv (hue_shift (color_filter effects_config));
  cvtColor hsv COLOR_HSV2BGR.

(** [apply_ml_enhancement]: the [try] body, and [frame] itself when it
    raises. *)
Definition apply_ml_enhancement (frame : ndarray) : ndarray :=
  match enhancement models with
  | Some body =>
      match body frame with
      | Ok enhanced => enhanced
      | Err _ => frame
      end
  | None => frame (* KeyError inside the try *)
  end.

(** Line 218-219. *)
Definition enhancement_stage (processed_frame : ndarray) : result ndarray :=
  Ok (apply_ml_enhancement processed_frame).

(** [apply_effects]. [frame.copy()] is an array with the same contents. *)
Definition apply_effects (frame : ndarray) : result ndarray :=
  let effects_config := processing_effects config in
  let processed_frame := frame in
  processed_frame ←
    (if blur_enabled (blur effects_config)
     then blur_stage processed_frame else Ok processed_frame);
  processed_frame ←
    (if edge_enabled (edge_detection effects_config)
     then edge_stage processed_frame else Ok processed_frame);
  processed_frame ←
    (if color_enabled (color_filter effects_config)
     then color_stage processed_frame else Ok processed_frame);
  processed_frame ←
    (if ml_enabled (ml_enhancement effects_config)
        && bool_decide (is_Some (enhancement models))
     then enhancement_stage processed_frame else Ok processed_frame);
  Ok processed_frame.

End EffectChain.

(** ** The effect chain on a store of arrays

    numpy arrays are mutable objects and [apply_effects] writes into one of
    them (line 215). Here a frame is a reference into a store of arrays:
    [copy] and every OpenCV call allocate their result, the slice
    assignment overwrites the array it is applied to. *)

Module InPlace.

Abbreviation loc := nat (only parsing).
Abbreviation store := (list ndarray) (only parsing).
Definition ST (A : Type) : Type := store -> result A * store.

#[global] Instance ST_ret : MRet ST := fun _ a h => (Ok a, h).
#[global] Instance ST_bind : MBind ST := fun _ _ f m h =>
  match m h with
  | (Ok a, h') => f a h'
  | (Err e, h') => (Err e, h')
  end.

Definition lift {A} (r : result A) : ST A := fun h => (r, h).

Definition alloc (a : ndarray) : ST loc :=
  fun h => (Ok (length h), h ++ [a]).

(** A reference the program holds is never dangling; the error case is
    there to make [load] total. *)
Definition load (l : loc) : ST ndarray :=
  fun h => match h !! l with
           | Some a => (Ok a, h)
           | None => (Err RuntimeError, h)
           end.

Definition assign (l : loc) (a : ndarray) : ST unit :=
  fun h => (Ok tt, <[l:=a]> h).

(** [try: body except Exception: handler], changes of the store kept. *)
Definition try_except {A} (body : ST A) (handler : exn -> ST A) : ST A :=
  fun h => match body h with
           | (Ok a, h') => (Ok a, h')
           | (Err e, h') => handler e h'
           end.

(** [frame.copy()]. *)
Definition copy (frame : loc) : ST loc :=
  a ← load frame; alloc a.

(** A call [f(src)] of a library function that returns a new array. *)
Definition call (f : ndarray -> result ndarray) (src : loc) : ST loc :=
  a ← load src; b ← lift (f a); alloc b.

(** Line 215, in place. *)
Definition rotate_hue (hsv : loc) (hue_shift : Z) : ST unit :=
  a ← load hsv; a' ← lift (rotate_hue a hue_shift); assign hsv a'.

Section EffectChain.
Context `{OpenCV}.
Variable config : Config.
Variable models : Models.

Definition blur_stage (processed_frame : loc) : ST loc :=
  let kernel_size := kernel_size (blur (processing_effects config)) in
  call (fun src => GaussianBlur src (kernel_size, kernel_size) 0)
       processed_frame.

Definition edge_stage (processed_frame : loc) : ST loc :=
  let effects_config := processing_effects config in
  gray ← call (fun src => cvtColor src COLOR_BGR2GRAY) processed_frame;
  edges ← call (fun src => Canny src
                             (threshold1 (edge_detection effects_config))
                             (threshold2 (edge_detection effects_config)))
               gray;
  call (fun src => cvtColor src COLOR_GRAY2BGR) edges.

Definition color_stage (processed_frame : loc) : ST loc :=
  let effects_config := processing_effects config in
  hsv ← call (fun src => cvtColor src COLOR_BGR2HSV) processed_frame;
  _ ← rotate_hue hsv (hue_shift (color_filter effects_config));
  call (fun src => cvtColor src COLOR_HSV2BGR) hsv.

(** [apply_ml_enhancement]: on failure the very array it was given is
    returned. *)
Definition apply_ml_enhancement (frame : loc) : ST loc :=
  try_except
    (match enhancement models with
     | Some body => call body frame
     | None => lift (Err RuntimeError)
     end)
    (fun _ => mret frame).

Definition apply_effects (frame : loc) : ST loc :=
  let effects_config := processing_effects config in
  processed_frame ← copy frame;
  processed_frame ←
    (if blur_enabled (blur effects_config)
     then blur_stage processed_frame else mret processed_frame);
  processed_frame ←
    (if edge_enabled (edge_detection effects_config)
     then edge_stage processed_frame else mret processed_frame);
  processed_frame ←
    (if color_enabled (color_filter effects_config)
     then color_stage processed_frame else mret processed_frame);
  processed_frame ←
    (if ml_enabled (ml_enhancement effects_config)
        && bool_decide (is_Some (enhancement models))
     then apply_ml_enhancement processed_frame else mret processed_frame);
  mret processed_frame.

End EffectChain.

End InPlace.

(** ** The stream registry and the world around it *)

(** [input_config] and the elements of [output_configs]: dictionaries of
    which the code reads the key ['type']. *)
Record InputConfig := { input_type : string; input_url : string }.
Record OutputConfig := { output_type : string }.

(** An entry of [self.active_streams]. Times are the seconds of
    [time.time()], idealised as rationals. *)
Record StreamEntry := {
  input : InputConfig;
  outputs : list OutputConfig;
  start_time : Q;
  frame_count : Z;
}.

(** A child process started with [subprocess.Popen(cmd, stdin=PIPE)]. *)
Record Process := {
  args : list string;
  stdin_closed : bool;
  stdin_received : list (list Z);
  running : bool;
}.

(** The calls that leave the program. *)
Inductive call :=
| os_makedirs (path : string)
| subprocess_Popen (cmd : list string)
| stdin_write (process : nat) (payload : list Z)
| stdin_flush (process : nat)
| stdin_close (process : nat)
| terminate (process : nat)
| wait (process : nat) (timeout : Z)
| kill (process : nat)
| send_to_webrtc_client (stream_id : string) (frame_data : list Z)
| cap_read
| cap_release.

(** A call with its outcome: [true] when it returned normally (for
    [cap_read]: the flag [ret]). *)
Definition event : Type := call * bool.

(** The processor ([active_streams], the attributes set with [setattr])
    and the world it acts on (child processes, the calls made so far). *)
Record State := {
  active_streams : gmap string StreamEntry;
  attributes : gmap string nat;
  processes : list Process;
  trace : list event;
}.

Definition set_active_streams (f : gmap string StreamEntry -> gmap string StreamEntry)
    (s : State) : State :=
  {| active_streams := f (active_streams s);
     attributes := attributes s;
     processes := processes s;
     trace := trace s |}.

Definition set_attributes (f : gmap string nat -> gmap string nat)
    (s : State) : State :=
  {| active_streams := active_streams s;
     attributes := f (attributes s);
     processes := processes s;
     trace := trace s |}.

Definition set_processes (f : list Process -> list Process) (s : State) : State :=
  {| active_streams := active_streams s;
     attributes := attributes s;
     processes := f (processes s);
     trace := trace s |}.

Definition log_event (e : event) (s : State) : State :=
  {| active_streams := active_streams s;
     attributes := attributes s;
     processes := processes s;
     trace := trace s ++ [e] |}.

Definition initial_state : State :=
  {| active_streams := ∅; attributes := ∅; processes := []; trace := [] |}.

(** What a call that returned normally did to the child processes. *)
Definition effect (c : call) (ps : list Process) : list Process :=
  match c with
  | subprocess_Popen cmd =>
      ps ++ [{| args := cmd; stdin_closed := false;
                stdin_received := []; running := true |}]
  | stdin_write p payload =>
      alter (fun q => {| args := args q; stdin_closed := stdin_closed q;
                         stdin_received := stdin_received q ++ [payload];
                         running := running q |}) p ps
  | stdin_close p =>
      alter (fun q => {| args := args q; stdin_closed := true;
                         stdin_received := stdin_received q;
                         running := running q |}) p ps
  | wait p _ | kill p =>
      alter (fun q => {| args := args q; stdin_closed := stdin_closed q;
                         stdin_received := stdin_received q;
                         running := false |}) p ps
  | _ => ps
  end.

(** Computations of the processor: a result and the state left behind,
    also when an exception is raised. *)
Definition M (A : Type) : Type := State -> result A * State.

#[global] Instance M_ret : MRet M := fun _ a s => (Ok a, s).
#[global] Instance M_bind : MBind M := fun _ _ f m s =>
  match m s with
  | (Ok a, s') => f a s'
  | (Err e, s') => (Err e, s')
  end.

Definition of_result {A} (r : result A) : M A := fun s => (r, s).

(** [try: body except Exception: handler]. *)
Definition try_except {A} (body : M A) (handler : exn -> M A) : M A :=
  fun s => match body s with
           | (Ok a, s') => (Ok a, s')
           | (Err e, s') => handler e s'
           end.

(** [try: body finally: cleanup]. *)
Definition try_finally {A} (body : M A) (cleanup : M unit) : M A :=
  fun s => match body s with
           | (r, s') =>
               match cleanup s' with
               | (Ok _, s'') => (r, s'')
               | (Err e, s'') => (Err e, s'')
               end
           end.

(** [for x in xs: body(x)]. *)
Fixpoint for_each {A} (xs : list A) (body : A -> M unit) : M unit :=
  match xs with
  | [] => mret tt
  | x :: xs' => _ ← body x; for_each xs' body
  end.

(** [logger.error(...)] and the like: no effect on the state. *)
Definition logger_error : M unit := mret tt.

(** The capture handle of [cv2.VideoCapture(url)]: whether it opened, and
    the frames it will deliver, each with the registry calls other threads
    make while the frame is being processed. *)
Inductive command :=
| call_add_stream (stream_id : string) (input_config : InputConfig)
    (output_configs : list OutputConfig) (now : Q)
| call_remove_stream (stream_id : string).

Record Capture := {
  isOpened : bool;
  frames : list (ndarray * list command);
}.

(** The world outside: the outcome of each fallible call, given the calls
    made before it, and the capture handle behind each URL. *)
Record Environment := {
  outcome : list event -> call -> bool;
  VideoCapture : string -> Capture;
}.

(** ** The methods of [VideoProcessor] *)

Section VideoProcessor.
Context `{OpenCV}.
Variable config : Config.
Variable models : Models.
Variable env : Environment.

(** A call that may raise [e]. *)
Definition external (c : call) (e : exn) : M unit :=
  fun s =>
    if outcome env (trace s) c
    then (Ok tt, set_processes (effect c) (log_event (c, true) s))
    else (Err e, log_event (c, false) s).

(** A call that does not raise. *)
Definition perform (c : call) : M unit :=
  fun s => (Ok tt, set_processes (effect c) (log_event (c, true) s)).

(** [subprocess.Popen(cmd, stdin=subprocess.PIPE)]: the new handle. *)
Definition Popen (cmd : list string) : M nat :=
  fun s =>
    match external (subprocess_Popen cmd) OSError s with
    | (Ok _, s') => (Ok (length (processes s)), s')
    | (Err e, s') => (Err e, s')
    end.

(** [stream_id in self.active_streams]. *)
Definition is_active (stream_id : string) : M bool :=
  fun s => (Ok (bool_decide (is_Some (active_streams s !! stream_id))), s).

(** [del self.active_streams[stream_id]]. *)
Definition del_active (stream_id : string) : M unit :=
  fun s => (Ok tt, set_active_streams (delete stream_id) s).

Definition hasattr (name : string) : M bool :=
  fun s => (Ok (bool_decide (is_Some (attributes s !! name))), s).

Definition setattr (name : string) (process : nat) : M unit :=
  fun s => (Ok tt, set_attributes (insert name process) s).

(** Used only after [hasattr]; the error case makes it total. *)
Definition getattr (name : string) : M nat :=
  fun s => match attributes s !! name with
           | Some process => (Ok process, s)
           | None => (Err RuntimeError, s)
           end.

Definition delattr (name : string) : M unit :=
  fun s => (Ok tt, set_attributes (delete name) s).

(** [frame.shape[i]]. *)
Definition shape_at (frame : ndarray) (i : nat) : result Z :=
  match shape frame !! i with
  | Some n => Ok n
  | None => Err IndexError
  end.

(** [output_webrtc]. *)
Definition output_webrtc (stream_id : string) (frame : ndarray)
    (output_config : OutputConfig) : M unit :=
  try_except
    (encoded_frame ← of_result (imencode_jpg frame 80);
     perform (send_to_webrtc_client stream_id encoded_frame))
    (fun _ => logger_error).

Definition hls_process (stream_id : string) : string :=
  ("hls_process_" +:+ stream_id)%string.

Definition dash_process (stream_id : string) : string :=
  ("dash_process_" +:+ stream_id)%string.

(** [output_hls]. *)
Definition output_hls (stream_id : string) (frame : ndarray)
    (output_config : OutputConfig) : M unit :=
  let output_path := ("output/" +:+ stream_id +:+ "/hls")%string in
  _ ← external (os_makedirs output_path) OSError;
  width ← of_result (shape_at frame 1);
  height ← of_result (shape_at frame 0);
  let ffmpeg_cmd :=
    ["ffmpeg"; "-y"; "-f"; "rawvideo"; "-pix_fmt"; "bgr24";
     "-s"; pretty width +:+ "x" +:+ pretty height; "-r"; "30";
     "-i"; "pipe:0";
     "-c:v"; "libx264"; "-preset"; "fast"; "-crf"; "23";
     "-hls_time"; pretty (hls_segment_duration (streaming config));
     "-hls_playlist_type"; "event";
     output_path +:+ "/playlist.m3u8"]%string in
  try_except
    (present ← hasattr (hls_process stream_id);
     _ ← (if negb present
          then process ← Popen ffmpeg_cmd;
               setattr (hls_process stream_id) process
          else mret tt);
     process ← getattr (hls_process stream_id);
     _ ← external (stdin_write process (tobytes frame)) BrokenPipeError;
     external (stdin_flush process) BrokenPipeError)
    (fun _ => logger_error).

(** [output_dash]. *)
Definition output_dash (stream_id : string) (frame : ndarray)
    (output_config : OutputConfig) : M unit :=
  let output_path := ("output/" +:+ stream_id +:+ "/dash")%string in
  _ ← external (os_makedirs output_path) OSError;
  width ← of_result (shape_at frame 1);
  height ← of_result (shape_at frame 0);
  let ffmpeg_cmd :=
    ["ffmpeg"; "-y"; "-f"; "rawvideo"; "-pix_fmt"; "bgr24";
     "-s"; pretty width +:+ "x" +:+ pretty height; "-r"; "30";
     "-i"; "pipe:0";
     "-c:v"; "libx264"; "-preset"; "fast"; "-crf"; "23";
     "-seg_duration"; pretty (dash_segment_duration (streaming config));
     "-f"; "dash";
     output_path +:+ "/manifest.mpd"]%string in
  try_except
    (present ← hasattr (dash_process stream_id);
     _ ← (if negb present
          then process ← Popen ffmpeg_cmd;
               setattr (dash_process stream_id) process
          else mret tt);
     process ← getattr (dash_process stream_id);
     _ ← external (stdin_write process (tobytes frame)) BrokenPipeError;
     external (stdin_flush process) BrokenPipeError)
    (fun _ => logger_error).

(** One turn of the loop of [output_frame]. *)
Definition deliver (stream_id : string) (frame : ndarray)
    (output_config : OutputConfig) : M unit :=
  if String.eqb (output_type output_config) "webrtc"
  then output_webrtc stream_id frame output_config
  else if String.eqb (output_type output_config) "hls"
  then output_hls stream_id frame output_config
  else if String.eqb (output_type output_config) "dash"
  then output_dash stream_id frame output_config
  else mret tt.

(** [output_frame]. *)
Definition output_frame (stream_id : string) (frame : ndarray) : M unit :=
  fun s =>
    let output_configs :=
      match active_streams s !! stream_id with
      | Some stream => outputs stream
      | None => []
      end in
    for_each output_configs (deliver stream_id frame) s.

(** [process_frame]. *)
Definition process_frame (stream_id : string) (frame : ndarray) : M unit :=
  try_except
    (processed_frame ← of_result (apply_effects config models frame);
     output_frame stream_id processed_frame)
    (fun _ => logger_error).

(** [add_stream]; [now] is the value of [time.time()]. *)
Definition add_stream (stream_id : string) (input_config : InputConfig)
    (output_configs : list OutputConfig) (now : Q) : M unit :=
  fun s =>
    (Ok tt,
     set_active_streams
       (insert stream_id
          {| input := input_config;
             outputs := output_configs;
             start_time := now;
             frame_count := 0 |}) s).

(** The body of the inner loop of [remove_stream] for one attribute. *)
Definition teardown (process_attr : string) : M unit :=
  present ← hasattr process_attr;
  if present : bool then
    process ← getattr process_attr;
    _ ← try_except
          (_ ← external (stdin_close process) OSError;
           _ ← external (terminate process) OSError;
           external (wait process 5) TimeoutExpired)
          (fun _ => perform (kill process));
    delattr process_attr
  else mret tt.

(** [remove_stream]. *)
Definition remove_stream (stream_id : string) : M unit :=
  registered ← is_active stream_id;
  if registered : bool then
    _ ← del_active stream_id;
    for_each [hls_process stream_id; dash_process stream_id] teardown
  else mret tt.

(** The result of [get_stream_stats]. *)
Record Stats := {
  stats_stream_id : string;
  duration : Q;
  stats_frame_count : Z;
  fps : Q;
  stats_input_type : string;
  output_types : list string;
}.

(** [get_stream_stats]; [current_time] is the value of [time.time()], and
    [None] is Python's [None]. *)
Definition get_stream_stats (stream_id : string) (current_time : Q)
    : M (option Stats) :=
  fun s =>
    match active_streams s !! stream_id with
    | None => (Ok None, s)
    | Some stream =>
        let duration := (current_time - start_time stream)%Q in
        (Ok (Some {| stats_stream_id := stream_id;
                     duration := duration;
                     stats_frame_count := frame_count stream;
                     fps := if negb (Qle_bool duration 0)
                            then (inject_Z (frame_count stream) / duration)%Q
                            else 0%Q;
                     stats_input_type := input_type (input stream);
                     output_types := output_type <$> outputs stream |}), s)
    end.

(** A registry call made by another thread. *)
Definition run_command (c : command) : M unit :=
  match c with
  | call_add_stream stream_id input_config output_configs now =>
      add_stream stream_id input_config output_configs now
  | call_remove_stream stream_id => remove_stream stream_id
  end.

(** The [while True] loop of [process_with_opencv] over the frames the
    handle still holds. *)
Fixpoint read_loop (stream_id : string)
    (pending : list (ndarray * list command)) : M unit :=
  match pending with
  | [] => fun s => (Ok tt, log_event (cap_read, false) s)
  | (frame, others) :: rest =>
      _ ← perform cap_read;
      _ ← process_frame stream_id frame;
      _ ← for_each others run_command;
      registered ← is_active stream_id;
      if registered : bool then read_loop stream_id rest else mret tt
  end.

(** [process_with_opencv]. *)
Definition process_with_opencv (input_url stream_id : string) : M unit :=
  let cap := VideoCapture env input_url in
  if negb (isOpened cap) then logger_error
  else try_finally (read_loop stream_id (frames cap)) (perform cap_release).

End VideoProcessor.

(** ** Concrete instances, for running the model *)

(** Every third element of a list, from the first one. *)
Fixpoint every_third (l : list Z) : list Z :=
  match l with
  | b :: _ :: _ :: rest => b :: every_third rest
  | _ => []
  end.

(** A stand-in for OpenCV with the argument checks of the real functions
    and the simplest arrays of the right shape as results: the blur keeps
    the image, gray is the first channel, the edge map is the gray image,
    HSV is BGR read as HSV, and the JPEG is the raw data. *)
Definition sample_cv : OpenCV :=
  {| GaussianBlur src ksize sigmaX :=
       if (0 <? ksize.1) && Z.odd ksize.1 && (0 <? ksize.2) && Z.odd ksize.2
       then Ok src else Err cv2_error;
     cvtColor src code :=
       match code, shape src with
       | COLOR_BGR2GRAY, [h; w; 3] =>
           Ok {| shape := [h; w]; data := every_third (data src) |}
       | COLOR_GRAY2BGR, [h; w] =>
           Ok {| shape := [h; w; 3];
                 data := data src ≫= (fun g => [g; g; g]) |}
       | (COLOR_BGR2HSV | COLOR_HSV2BGR), [h; w; 3] => Ok src
       | _, _ => Err cv2_error
       end;
     Canny image threshold1 threshold2 :=
       match shape image with
       | [_; _] => Ok image
       | _ => Err cv2_error
       end;
     imencode_jpg img quality :=
       if bool_decide (data img = []) then Err cv2_error else Ok (data img) |}.

(** No model was loaded. *)
Definition no_models : Models := {| enhancement := None |}.

(** A model whose forward pass always raises. *)
Definition failing_models : Models :=
  {| enhancement := Some (fun _ => Err RuntimeError) |}.

(** A world in which every call succeeds and no URL opens. *)
Definition calm : Environment :=
  {| outcome := fun _ _ => true;
     VideoCapture := fun _ => {| isOpened := false; frames := [] |} |}.

(** A 1x2 BGR frame. *)
Definition sample_frame : ndarray :=
  {| shape := [1; 2; 3]; data := [10; 20; 30; 170; 200; 210] |}.

Definition with_effects (e : ProcessingEffects) : Config :=
  {| processing_effects := e; streaming := streaming default_config |}.

Definition rtmp_input : InputConfig :=
  {| input_type := "rtmp"; input_url := "rtmp://camera/live" |}.

Definition webrtc : OutputConfig := {| output_type := "webrtc" |}.
Definition hls : OutputConfig := {| output_type := "hls" |}.
Definition dash : OutputConfig := {| output_type := "dash" |}.

(** Blur enabled with an even kernel size, which [cv2.GaussianBlur]
    refuses; the other stages disabled. *)
Definition even_blur : Config :=
  with_effects
    {| blur := {| blur_enabled := true; kernel_size := 4 |};
       edge_detection :=
         {| edge_enabled := false; threshold1 := 100; threshold2 := 200 |};
       color_filter := {| color_enabled := false; hue_shift := 0 |};
       ml_enhancement := {| ml_enabled := false; model := "esrgan" |} |}.

(** A world in which the HLS encoder cannot be spawned. *)
Definition hls_spawn_fails : Environment :=
  {| outcome := fun _ c =>
       match c with
       | subprocess_Popen cmd => negb (bool_decide ("-hls_time" ∈ cmd))
       | _ => true
       end;
     VideoCapture := VideoCapture calm |}.

(** A world in which no child process exits within the timeout. *)
Definition wait_times_out : Environment :=
  {| outcome := fun _ c =>
       match c with
       | wait _ _ => false
       | _ => true
       end;
     VideoCapture := VideoCapture calm |}.

(** A world whose capture handles open and deliver one frame. *)
Definition one_frame_camera : Environment :=
  {| outcome := fun _ _ => true;
     VideoCapture := fun _ =>
       {| isOpened := true; frames := [(sample_frame, [])] |} |}.

(** ["s1"] registered with the given outputs at time 0. *)
Definition registered (output_configs : list OutputConfig) : State :=
  (add_stream "s1" rtmp_input output_configs 0%Q initial_state).2.

(** ["s1"] registered with an HLS output, one frame processed: the encoder
    is child process 0. *)
Definition streaming_hls : State :=
  (process_frame (H := sample_cv) default_config no_models calm "s1" sample_frame
     (registered [hls])).2.

(** ** The behaviour the specification describes

    These definitions follow the words of the specification, to be compared
    with the ones above, which follow the code. *)

(** "fixed stage order: blur, edge-detection, color-filter, enhancement". *)
Inductive stage := Blur | EdgeDetection | ColorFilter | Enhancement.

Definition stage_order : list stage :=
  [Blur; EdgeDetection; ColorFilter; Enhancement].

Section Specification.
Context `{OpenCV}.
Variable config : Config.
Variable models : Models.

(** "each stage independently toggled by configuration"; the enhancement
    stage runs "if enabled AND an EnhancementProvider capability is
    registered". *)
Definition stage_enabled (s : stage) : bool :=
  let effects_config := processing_effects config in
  match s with
  | Blur => blur_enabled (blur effects_config)
  | EdgeDetection => edge_enabled (edge_detection effects_config)
  | ColorFilter => color_enabled (color_filter effects_config)
  | Enhancement =>
      ml_enabled (ml_enhancement effects_config)
      && bool_decide (is_Some (enhancement models))
  end.

Definition run_stage (s : stage) : ndarray -> result ndarray :=
  match s with
  | Blur => blur_stage config
  | EdgeDetection => edge_stage config
  | ColorFilter => color_stage config
  | Enhancement => enhancement_stage models
  end.

(** The stages of a list, one after the other. *)
Definition run_chain (stages : list stage) (frame : ndarray) : result ndarray :=
  foldl (fun acc s => acc ≫= run_stage s) (Ok frame) stages.

(** "the frame proceeds with the failing stage's output treated as a no-op
    (original input to that stage)". *)
Definition forgiving (f : ndarray -> result ndarray) (x : ndarray) : ndarray :=
  match f x with
  | Ok y => y
  | Err _ => x
  end.

Definition forgiving_chain (stages : list stage) (frame : ndarray) : ndarray :=
  foldl (fun x s => forgiving (run_stage s) x) frame stages.

End Specification.

(** "each pixel's hue becomes the original hue plus hue_shift wrapped modulo
    the hue range (180)". *)
Definition rotated_hue (hue_shift h : Z) : Z := (h + hue_shift) mod 180.

(** ** What the statements below speak of *)

(** [m], started in [h], computes a reference to the value [r] (or raises
    as [r] does), the reference is to an array made after [h0], and the
    arrays of [h0] are as they were. *)
Definition tracks (h0 : InPlace.store) (m : InPlace.ST InPlace.loc)
    (r : result ndarray) (h : InPlace.store) : Prop :=
  h0 `prefix_of` (m h).2
  /\ match r with
     | Ok b =>
         exists l, (m h).1 = Ok l /\ (length h0 <= l)%nat
                   /\ (m h).2 !! l = Some b
     | Err e => (m h).1 = Err e
     end.

(** A computation that leaves the observation [f] of the state as it is. *)
Definition preserves {A B} (f : State -> B) (m : M A) : Prop :=
  forall s, f (m s).2 = f s.

Definition is_cap_read (c : call) : bool :=
  match c with
  | cap_read => true
  | _ => false
  end.

(** The number of frames the capture handle has delivered. *)
Definition frames_read (s : State) : nat :=
  length (List.filter (fun e : event => is_cap_read e.1 && e.2) (trace s)).

(** What one segmented sink (HLS or DASH) may add to the trace for one
    frame: its directory is made, the encoder is spawned unless the
    attribute already holds one, and the frame is written to its pipe and
    flushed. A failed spawn or write ends the list there. *)
Definition segmented_attempt (path : string) (payload : list Z)
    (evs : list event) : Prop :=
  exists rest,
    evs = (os_makedirs path, true) :: rest
    /\ ((exists cmd, rest = [(subprocess_Popen cmd, false)])
        \/ exists spawned process,
             (spawned = [] \/ exists cmd,
                 spawned = [(subprocess_Popen cmd, true)])
             /\ (rest = spawned ++ [(stdin_write process payload, false)]
                 \/ exists flushed,
                      rest = spawned ++ [(stdin_write process payload, true);
                                         (stdin_flush process, flushed)])).

(** What the sink of an output configuration may add to the trace for one
    frame. *)
Definition sink_attempt `{OpenCV} (sid : string) (frame : ndarray)
    (o : OutputConfig) (evs : list event) : Prop :=
  if String.eqb (output_type o) "webrtc" then
    match imencode_jpg frame 80 with
    | Ok encoded => evs = [(send_to_webrtc_client sid encoded, true)]
    | Err _ => evs = []
    end
  else if String.eqb (output_type o) "hls" then
    segmented_attempt ("output/" +:+ sid +:+ "/hls") (tobytes frame) evs
  else if String.eqb (output_type o) "dash" then
    segmented_attempt ("output/" +:+ sid +:+ "/dash") (tobytes frame) evs
  else evs = [].

(** The calls that take one child process down: close its pipe, ask it to
    terminate, wait five seconds for it; if the wait times out, or one of
    the calls before it raises, kill it. *)
Definition torn_down (process : nat) (evs : list event) : Prop :=
  evs = [(stdin_close process, true); (terminate process, true);
         (wait process 5, true)]
  \/ evs = [(stdin_close process, true); (terminate process, true);
            (wait process 5, false); (kill process, true)]
  \/ evs = [(stdin_close process, true); (terminate process, false);
            (kill process, true)]
  \/ evs = [(stdin_close process, false); (kill process, true)].

(** What [remove_stream] does about an attribute: the teardown of the
    process it holds, nothing if it is not set. *)
Definition teardown_of (tracked : option nat) (evs : list event) : Prop :=
  match tracked with
  | Some process => torn_down process evs
  | None => evs = []
  end.

Definition stopped (ps : list Process) (p : nat) : Prop :=
  running <$> ps !! p = Some false.

Section AfterFrame.
Context `{OpenCV}.
Variable config : Config.
Variable models : Models.
Variable env : Environment.

(** The state when the stream is looked up after a frame: the frame has
    been read and processed, and the other threads have made their calls. *)
Definition after_frame (sid : string) (frame : ndarray)
    (others : list command) (s : State) : State :=
  (for_each others (run_command env)
     (process_frame config models env sid frame (perform cap_read s).2).2).2.

(** The same after each frame of a list, in order. *)
Definition after_frames (sid : string)
    (read : list (ndarray * list command)) (s : State) : State :=
  foldl (fun s fo => after_frame sid fo.1 fo.2 s) s read.

(** The stream is found in the registry after each frame of the list. *)
Fixpoint stays_registered (sid : string)
    (read : list (ndarray * list command)) (s : State) : Prop :=
  match read with
  | [] => True
  | fo :: read' =>
      is_Some (active_streams (after_frame sid fo.1 fo.2 s) !! sid)
      /\ stays_registered sid read' (after_frame sid fo.1 fo.2 s)
  end.

End AfterFrame.

(** ** [shutdown] and the state of the child processes *)

Section Shutdown.
Variable env : Environment.

(** [shutdown]. The snapshot [list(self.active_streams.keys())] is the
    argument [stream_ids]: the registry, a [gmap], does not record the
    order in which the streams were added. No task is ever submitted to
    the executor, so [self.executor.shutdown(wait=True)] has nothing to wait
    for and changes nothing here. *)
Definition shutdown (stream_ids : list string) : M unit :=
  for_each stream_ids (remove_stream env).

End Shutdown.

(** Every process attribute is the HLS or DASH attribute of a registered
    stream. *)
Definition owned (registry : gmap string StreamEntry)
    (attrs : gmap string nat) : Prop :=
  forall name p,
    attrs !! name = Some p ->
    exists sid,
      is_Some (registry !! sid)
      /\ (name = hls_process sid \/ name = dash_process sid).

(** Every child process that is running is held by a process attribute. *)
Definition held (attrs : gmap string nat) (ps : list Process) : Prop :=
  forall p q,
    ps !! p = Some q -> running q = true ->
    exists name, attrs !! name = Some p.

(** No attribute without its stream, no running process without its
    attribute. *)
Definition consistent (s : State) : Prop :=
  owned (active_streams s) (attributes s)
  /\ held (attributes s) (processes s).

(** The states that calls of the methods lead to from the initial one
    when the calls do not overlap: each runs to its end before the next one
    starts, and a call of another thread lands between two frames of
    [process_with_opencv]. *)
Inductive reachable `{OpenCV} (config : Config) (models : Models)
    (env : Environment) : State -> Prop :=
| reachable_initial : reachable config models env initial_state
| reachable_add_stream s sid input_config output_configs now :
    reachable config models env s ->
    reachable config models env
      (add_stream sid input_config output_configs now s).2
| reachable_remove_stream s sid :
    reachable config models env s ->
    reachable config models env (remove_stream env sid s).2
| reachable_process_frame s sid frame :
    reachable config models env s ->
    reachable config models env
      (process_frame config models env sid frame s).2
| reachable_process_with_opencv s input_url sid :
    reachable config models env s ->
    reachable config models env
      (process_with_opencv config models env input_url sid s).2
| reachable_shutdown s stream_ids :
    reachable config models env s ->
    reachable config models env (shutdown env stream_ids s).2.

(** A call that starts a child process. *)
Definition is_spawn (c : call) : bool :=
  match c with
  | subprocess_Popen _ => true
  | _ => false
  end.

(** The child process a call acts on. *)
Definition handle_of (c : call) : option nat :=
  match c with
  | stdin_write p _ | stdin_flush p | stdin_close p | terminate p
  | wait p _ | kill p => Some p
  | _ => None
  end.


(** Every entry of the registry has [frame_count] 0. *)
Definition uncounted (s : State) : Prop :=
  forall sid stream,
    active_streams s !! sid = Some stream -> frame_count stream = 0.

(** ** A registry call inside a frame

    [add_stream] and [remove_stream] take the lock; [process_frame] and
    [output_frame] do not. A call made by another thread, or by the signal
    handler, which runs [shutdown], can therefore run while a frame is in
    flight. *)

Section Interleaving.
Context `{OpenCV}.
Variable config : Config.
Variable env : Environment.

(** [output_frame] when the registry calls [others] run between line 239,
    which reads the outputs of the stream, and the loop over them. *)
Definition output_frame_interrupted (stream_id : string) (frame : ndarray)
    (others : list command) : M unit :=
  fun s =>
    let output_configs :=
      match active_streams s !! stream_id with
      | Some stream => outputs stream
      | None => []
      end in
    (_ ← for_each others (run_command env);
     for_each output_configs (deliver config env stream_id frame)) s.

End Interleaving.

(** Every process attribute holds a child process that was started. *)
Definition tracked (s : State) : Prop :=
  forall name p, attributes s !! name = Some p -> is_Some (processes s !! p).

(** The process attribute of a segmented sink. *)
Definition process_attr_of (o : OutputConfig) (stream_id : string) : string :=
  if String.eqb (output_type o) "hls"
  then hls_process stream_id else dash_process stream_id.

(** The world [env], except that every directory can be made. *)
Definition with_makedirs (env : Environment) : Environment :=
  {| outcome := fun t c =>
       match c with
       | os_makedirs _ => true
       | _ => outcome env t c
       end;
     VideoCapture := VideoCapture env |}.

(** A segmented sink: HLS or DASH. *)
Definition segmented (o : OutputConfig) : Prop :=
  output_type o = "hls" \/ output_type o = "dash".

(** ** Frames from GStreamer buffers *)

(** [caps.get_structure(0)] with the values [get_value] returns for
    ['width'] and ['height']: [None] for a field that is absent (or not an
    integer). *)
Record GstStructure := {
  width_value : option Z;
  height_value : option Z;
}.

Record GstCaps := { structures : list GstStructure }.

(** A buffer: whether [buffer.map] succeeds, and the bytes of
    [map_info.data]. *)
Record GstBuffer := { map_succeeds : bool; buffer_data : list Z }.

(** [np.frombuffer(data, dtype=np.uint8)]: a one-dimensional array. *)
Definition frombuffer (bytes : list Z) : ndarray :=
  {| shape := [Z.of_nat (length bytes)]; data := bytes |}.

(** The largest [npy_intp], the type of numpy's dimensions and sizes, on a
    64-bit platform. *)
Definition NPY_MAX_INTP : Z := 2 ^ 63 - 1.

(** numpy makes no array whose dimensions, the zeros left out, have a
    product of more than [NPY_MAX_INTP] bytes ("array is too big"); an
    element of [uint8] is one byte. *)
Definition array_fits (shape : list Z) : bool :=
  foldr Z.mul 1 (List.filter (fun d => negb (d =? 0)) shape) <=? NPY_MAX_INTP.

(** [a.reshape((d0, d1, d2))] of a one-dimensional array; [None] stands for
    the exception numpy raises. Each dimension must be an [npy_intp]. A
    negative dimension, whatever its value, is the one to infer from the
    size: there may be one only, and the product of the others must be a
    divisor of the size, and not zero. Without one, the product of the
    dimensions must be the size. The array of the new shape must fit. *)
Definition reshape (a : ndarray) (newshape : Z * Z * Z) : option ndarray :=
  let '(d0, d1, d2) := newshape in
  let dimensions := [d0; d1; d2] in
  let size := Z.of_nat (length (data a)) in
  let known := foldr Z.mul 1 (List.filter (fun d => 0 <=? d) dimensions) in
  let view dimensions :=
    if array_fits dimensions
    then Some {| shape := dimensions; data := data a |} else None in
  if forallb (fun d => (- 2 ^ 63 <=? d) && (d <=? NPY_MAX_INTP)) dimensions
  then
    match List.filter (fun d => d <? 0) dimensions with
    | [] => if known =? size then view dimensions else None
    | [_] =>
        if (known =? 0) || negb (size mod known =? 0) then None
        else view ((fun d => if d <? 0 then size / known else d)
                     <$> dimensions)
    | _ => None
    end
  else None.

(** [gst_buffer_to_opencv]: the frame, [None] when the [try] raises or the
    buffer does not map, and whether the buffer is left mapped on return
    ([buffer.unmap] is the statement after [reshape]). A [buffer.map] that
    raises is one that does not succeed; [buffer.unmap] of a mapped buffer
    does not raise. *)
Definition gst_buffer_to_opencv (buffer : GstBuffer) (caps : GstCaps)
    : option ndarray * bool :=
  match structures caps !! 0%nat with
  | None => (None, false)
  | Some caps_structure =>
      let width := width_value caps_structure in
      let height := height_value caps_structure in
      if negb (map_succeeds buffer) then (None, false)
      else
        let numpy_array := frombuffer (buffer_data buffer) in
        match height, width with
        | Some height, Some width =>
            match reshape numpy_array (height, width, 3) with
            | Some frame => (Some frame, false)
            | None => (None, true)
            end
        | _, _ => (None, true)
        end
  end.

(** ** Start-up: configuration file, device and models

    [__init__], [load_config], [setup_gpu] and [setup_models] work on the
    dictionary [json.load] returns, before any frame is processed. *)

Module Startup.

(** A value of [json.load]: [None], a bool, an int, a float ([NaN] and the
    infinities are accepted by [json.load]), a string, a list or a dict
    given by its items in the order of the file. *)
#[local] Unset Elimination Schemes.
Inductive json :=
| JNull
| JBool (b : bool)
| JInt (n : Z)
| JFloat (x : Q)
| JNaN
| JInfinity (negative : bool)
| JStr (s : string)
| JList (items : list json)
| JObj (items : list (string * json)).
#[local] Set Elimination Schemes.

Inductive error :=
| KeyError (key : string)
| TypeError
| ValueError
| NameError (name : string)
| OSError
| JSONDecodeError
| OtherError (name : string).

Inductive attempt (A : Type) :=
| Returns (a : A)
| Raises (e : error).
Arguments Returns {A} a.
Arguments Raises {A} e.

#[global] Instance attempt_ret : MRet attempt := fun _ a => Returns a.
#[global] Instance attempt_bind : MBind attempt := fun _ _ f r =>
  match r with
  | Returns a => f a
  | Raises e => Raises e
  end.

(** [d.update(items)] for the items of a dict: a later item of the same key
    wins. *)
Definition update_items (d : gmap string json) (items : list (string * json))
    : gmap string json :=
  foldl (fun d item => <[item.1 := item.2]> d) d items.

(** The dict of a JSON object. *)
Definition dict (items : list (string * json)) : gmap string json :=
  update_items ∅ items.

(** [d[key]] on a dict. *)
Definition getitem (d : gmap string json) (key : string) : attempt json :=
  match d !! key with
  | Some value => Returns value
  | None => Raises (KeyError key)
  end.

(** [value[key]] with a string key: a [KeyError] on a dict without the key,
    a [TypeError] on every other value. *)
Definition subscript (value : json) (key : string) : attempt json :=
  match value with
  | JObj items => getitem (dict items) key
  | _ => Raises TypeError
  end.

(** Truth value of a JSON value in an [if]. *)
Definition truthy (value : json) : bool :=
  match value with
  | JNull => false
  | JBool b => b
  | JInt n => negb (n =? 0)
  | JFloat x => negb (Qeq_bool x 0)
  | JNaN | JInfinity _ => true
  | JStr s => negb (String.eqb s "")
  | JList items => negb (bool_decide (items = []))
  | JObj items => negb (bool_decide (items = []))
  end.

Inductive device := cuda | cpu.

(** The module [torch] as the processor uses it. *)
Record Torch := {
  cuda_is_available : bool;
  cuda_get_device_name : attempt string;
  (** [SimpleEnhancer().to(device)], as the function [apply_ml_enhancement]
      runs with it. *)
  enhancer_to : device -> attempt (ndarray -> result ndarray);
}.

(** What the processor finds on the machine. [torch] is [None] when
    [import torch] raised [ImportError], so that the name is unbound;
    [torchvision] tells whether [import torchvision.transforms] succeeded.
    [update_other] is [dict.update] with an argument that is not a dict. *)
Record Host := {
  path_exists : string -> bool;
  json_load : string -> attempt json;
  update_other : gmap string json -> json -> attempt (gmap string json);
  torch : option Torch;
  torchvision : bool;
}.

(** The dict [default_config] of [load_config]. *)
Definition default_config : gmap string json :=
  dict
    [("gpu_enabled", JBool true);
     ("max_workers", JInt 4);
     ("output_formats", JList [JStr "webrtc"; JStr "hls"; JStr "dash"]);
     ("processing_effects",
      JObj
        [("blur", JObj [("enabled", JBool false); ("kernel_size", JInt 15)]);
         ("edge_detection",
          JObj [("enabled", JBool false); ("threshold1", JInt 100);
                ("threshold2", JInt 200)]);
         ("color_filter",
          JObj [("enabled", JBool false); ("hue_shift", JInt 0)]);
         ("ml_enhancement",
          JObj [("enabled", JBool false); ("model", JStr "esrgan")])]);
     ("streaming",
      JObj
        [("webrtc_bitrate", JInt 2000000);
         ("hls_segment_duration", JInt 6);
         ("dash_segment_duration", JInt 4)])].

(** [ThreadPoolExecutor(max_workers=...)]: [None] selects the default
    number, any other value is compared with [0]. *)
Definition ThreadPoolExecutor (max_workers : json) : attempt unit :=
  match max_workers with
  | JNull => Returns tt
  | JBool b => if b then Returns tt else Raises ValueError
  | JInt n => if n <=? 0 then Raises ValueError else Returns tt
  | JFloat x => if Qle_bool x 0 then Raises ValueError else Returns tt
  | JNaN => Returns tt
  | JInfinity negative => if negative then Raises ValueError else Returns tt
  | JStr _ | JList _ | JObj _ => Raises TypeError
  end.

Record VideoProcessor := {
  config : gmap string json;
  device_of : device;
  models : Models;
  state : State;
}.

Section Startup.
Variable host : Host.

(** Lines 16-22. *)
Definition GPU_AVAILABLE : bool :=
  match torch host with
  | Some torch => torchvision host && cuda_is_available torch
  | None => false
  end.

(** [default_config.update(user_config)]. *)
Definition update (d : gmap string json) (other : json)
    : attempt (gmap string json) :=
  match other with
  | JObj items => Returns (update_items d items)
  | _ => update_other host d other
  end.

Definition load_config (config_file : string) : attempt (gmap string json) :=
  if path_exists host config_file then
    user_config ← json_load host config_file;
    update default_config user_config
  else Returns default_config.

(** [torch.device(...)] needs the name [torch] in both branches. *)
Definition setup_gpu (config : gmap string json) : attempt device :=
  if GPU_AVAILABLE && truthy (default (JBool true) (config !! "gpu_enabled"))
  then
    match torch host with
    | Some torch => _ ← cuda_get_device_name torch; Returns cuda
    | None => Raises (NameError "torch")
    end
  else
    match torch host with
    | Some _ => Returns cpu
    | None => Raises (NameError "torch")
    end.

Definition load_enhancement_model (device : device)
    : attempt (ndarray -> result ndarray) :=
  match torch host with
  | Some torch => enhancer_to torch device
  | None => Raises (NameError "torch")
  end.

(** [self.models] after [setup_models]. The [and] reads the configuration
    only when [GPU_AVAILABLE]; the [try] covers the loading alone. *)
Definition setup_models (config : gmap string json) (device : device)
    : attempt Models :=
  if GPU_AVAILABLE then
    effects ← getitem config "processing_effects";
    ml_enhancement ← subscript effects "ml_enhancement";
    enabled ← subscript ml_enhancement "enabled";
    if truthy enabled then
      match load_enhancement_model device with
      | Returns model => Returns {| enhancement := Some model |}
      | Raises _ => Returns {| enhancement := None |}
      end
    else Returns {| enhancement := None |}
  else Returns {| enhancement := None |}.

(** [VideoProcessor(config_file)]. *)
Definition init (config_file : string) : attempt VideoProcessor :=
  config ← load_config config_file;
  _ ← ThreadPoolExecutor (default (JInt 4) (config !! "max_workers"));
  device ← setup_gpu config;
  models ← setup_models config device;
  Returns {| config := config; device_of := device; models := models;
             state := initial_state |}.

End Startup.

(** The configuration as the effect chain and the sinks read it: every
    key they subscript, with the type the calls take. *)
Definition as_bool (value : json) : option bool :=
  match value with JBool b => Some b | _ => None end.

Definition as_int (value : json) : option Z :=
  match value with JInt n => Some n | _ => None end.

Definition as_str (value : json) : option string :=
  match value with JStr s => Some s | _ => None end.

Definition member (value : json) (key : string) : option json :=
  match value with JObj items => dict items !! key | _ => None end.

Definition typed (config : gmap string json) : option Config :=
  effects ← config !! "processing_effects";
  blur ← member effects "blur";
  blur_enabled ← member blur "enabled" ≫= as_bool;
  kernel_size ← member blur "kernel_size" ≫= as_int;
  edge_detection ← member effects "edge_detection";
  edge_enabled ← member edge_detection "enabled" ≫= as_bool;
  threshold1 ← member edge_detection "threshold1" ≫= as_int;
  threshold2 ← member edge_detection "threshold2" ≫= as_int;
  color_filter ← member effects "color_filter";
  color_enabled ← member color_filter "enabled" ≫= as_bool;
  hue_shift ← member color_filter "hue_shift" ≫= as_int;
  ml_enhancement ← member effects "ml_enhancement";
  ml_enabled ← member ml_enhancement "enabled" ≫= as_bool;
  model ← member ml_enhancement "model" ≫= as_str;
  streaming ← config !! "streaming";
  webrtc_bitrate ← member streaming "webrtc_bitrate" ≫= as_int;
  hls_segment_duration ← member streaming "hls_segment_duration" ≫= as_int;
  dash_segment_duration ← member streaming "dash_segment_duration" ≫= as_int;
  Some
    {| processing_effects :=
         {| blur := {| blur_enabled := blur_enabled;
                       kernel_size := kernel_size |};
            edge_detection := {| edge_enabled := edge_enabled;
                                 threshold1 := threshold1;
                                 threshold2 := threshold2 |};
            color_filter := {| color_enabled := color_enabled;
                               hue_shift := hue_shift |};
            ml_enhancement := {| ml_enabled := ml_enabled; model := model |} |};
       streaming :=
         {| webrtc_bitrate := webrtc_bitrate;
            hls_segment_duration := hls_segment_duration;
            dash_segment_duration := dash_segment_duration |} |}.

End Startup.

(** ** More concrete instances *)

(** A world in which the directory of the HLS output of ["s1"] cannot be
    created. *)
Definition hls_makedirs_fails : Environment :=
  {| outcome := fun _ c =>
       match c with
       | os_makedirs path => negb (String.eqb path "output/s1/hls")
       | _ => true
       end;
     VideoCapture := VideoCapture calm |}.

(** [streaming_hls] after one more frame of ["s1"], with a
    [remove_stream] of ["s1"] landing inside it. *)
Definition orphaned : State :=
  (output_frame_interrupted (H := sample_cv) default_config calm "s1"
     sample_frame [call_remove_stream "s1"] streaming_hls).2.

(** A buffer with the bytes of [sample_frame], and caps of 1 row and 2
    columns. *)
Definition sample_buffer : GstBuffer :=
  {| map_succeeds := true; buffer_data := data sample_frame |}.

Definition sample_caps : GstCaps :=
  {| structures := [{| width_value := Some 2; height_value := Some 1 |}] |}.

(** Caps whose height is negative: numpy infers the number of rows. *)
Definition inferring_caps : GstCaps :=
  {| structures := [{| width_value := Some 2; height_value := Some (-2) |}] |}.

(** A [torch] with CUDA, whose enhancer returns the frame it is given. *)
Definition sample_torch : Startup.Torch :=
  {| Startup.cuda_is_available := true;
     Startup.cuda_get_device_name := Startup.Returns "GPU 0";
     Startup.enhancer_to := fun _ => Startup.Returns (fun frame => Ok frame) |}.

(** A host with the given configuration file, if any, and the given
    [torch]. *)
Definition sample_host (file : option Startup.json)
    (torch : option Startup.Torch) : Startup.Host :=
  {| Startup.path_exists := fun _ => bool_decide (is_Some file);
     Startup.json_load := fun _ =>
       match file with
       | Some user_config => Startup.Returns user_config
       | None => Startup.Raises Startup.OSError
       end;
     Startup.update_other := fun _ _ => Startup.Raises Startup.TypeError;
     Startup.torch := torch;
     Startup.torchvision := true |}.

(** A file that enables the blur and says nothing else about the
    effects. *)
Definition blur_only : Startup.json :=
  Startup.JObj
    [("max_workers", Startup.JInt 8);
     ("processing_effects",
      Startup.JObj
        [("blur",
          Startup.JObj [("enabled", Startup.JBool true);
                        ("kernel_size", Startup.JInt 5)])])].

(** * Properties *)

(** ** The effect chain *)

Section EffectChainFacts.
Context `{OpenCV}.
Variable config : Config.
Variable models : Models.

Lemma enhancement_stage_ok x :
  exists y, enhancement_stage models x = Ok y.
Proof. unfold enhancement_stage. eauto. Qed.

(** The chain is the enabled stages of [stage_order], in that order. *)
Lemma apply_effects_run_chain (frame : ndarray) :
  apply_effects config models frame
  = run_chain config models
      (List.filter (stage_enabled config models) stage_order) frame.
Proof.
  unfold apply_effects, run_chain, stage_order, stage_enabled.
  destruct (blur_enabled _), (edge_enabled _), (color_enabled _),
    (ml_enabled _ && _); cbn;
    repeat match goal with
           | |- context [blur_stage ?c ?x] =>
               destruct (blur_stage c x); cbn
           | |- context [edge_stage ?c ?x] =>
               destruct (edge_stage c x); cbn
           | |- context [color_stage ?c ?x] =>
               destruct (color_stage c x); cbn
           end; reflexivity.
Qed.

(** Once a stage has raised, the rest of the chain is not run. *)
Lemma run_chain_raised (stages : list stage) e :
  foldl (fun acc s => acc ≫= run_stage config models s) (Err e) stages
  = Err e.
Proof. induction stages as [|s stages IH]; [done|]. apply IH. Qed.

Lemma run_chain_stage_raises before st after frame x e :
  run_chain config models before frame = Ok x ->
  run_stage config models st x = Err e ->
  run_chain config models (before ++ st :: after) frame = Err e.
Proof.
  unfold run_chain. intros Hbefore Hst.
  rewrite foldl_app, Hbefore. cbn. rewrite Hst. apply run_chain_raised.
Qed.

(** C2: [apply_effects] runs exactly the enabled stages, in the order blur,
    edge detection, colour filter, enhancement, whatever subset is enabled:
    a disabled stage is skipped, and with every stage disabled the result
    is the input frame. *)
Theorem apply_effects_fixed_order (frame : ndarray) :
  apply_effects config models frame
  = run_chain config models
      (List.filter (stage_enabled config models) stage_order) frame
  /\ ((forall s, stage_enabled config models s = false) ->
      apply_effects config models frame = Ok frame).
Proof.
  split; [apply apply_effects_run_chain|].
  intros Hoff. unfold apply_effects.
  pose proof (Hoff Blur) as Hb. pose proof (Hoff EdgeDetection) as He.
  pose proof (Hoff ColorFilter) as Hc. pose proof (Hoff Enhancement) as Hm.
  cbn in Hb, He, Hc, Hm. rewrite Hb, He, Hc, Hm. reflexivity.
Qed.

End EffectChainFacts.

(** *** Line 215 on single elements *)

Lemma hue_element_range s h : 0 <= hue_element s h < 180.
Proof. unfold hue_element, uint8_mod. apply Z.mod_pos_bound. lia. Qed.

(** Without overflow of the [uint8] sum the hue is rotated modulo 180. *)
Lemma hue_element_no_overflow s h :
  0 <= h -> 0 <= s -> h + s < 256 -> hue_element s h = rotated_hue s h.
Proof.
  intros Hh Hs Hlt. unfold hue_element, uint8_mod, uint8_add, rotated_hue.
  rewrite (Z.mod_small (h + s) 256) by lia. reflexivity.
Qed.

(** With overflow the sum loses 256 before it is reduced modulo 180. *)
Lemma hue_element_overflow s h :
  h < 256 -> s < 256 -> 256 <= h + s ->
  hue_element s h = (h + s - 256) mod 180.
Proof.
  intros Hh Hs Hge. unfold hue_element, uint8_mod, uint8_add.
  replace (h + s) with ((h + s - 256) + 1 * 256) by lia.
  rewrite Z.mod_add by lia.
  rewrite (Z.mod_small (h + s - 256) 256) by lia.
  f_equal. lia.
Qed.

Lemma in_channel0_3 (k : nat) :
  in_channel0 3 1 (3 * k) = true
  /\ in_channel0 3 1 (3 * k + 1) = false
  /\ in_channel0 3 1 (3 * k + 2) = false.
Proof.
  unfold in_channel0. rewrite !Z.div_1_r.
  repeat split.
  - apply Z.eqb_eq.
    replace (Z.of_nat (3 * k)) with (Z.of_nat k * 3) by lia.
    apply Z.mod_mul. lia.
  - apply Z.eqb_neq.
    replace (Z.of_nat (3 * k + 1)) with (1 + Z.of_nat k * 3) by lia.
    rewrite Z.mod_add by lia. discriminate.
  - apply Z.eqb_neq.
    replace (Z.of_nat (3 * k + 2)) with (2 + Z.of_nat k * 3) by lia.
    rewrite Z.mod_add by lia. discriminate.
Qed.

(** On a three-channel array and a shift that [uint8] holds, line 215
    replaces the first channel of every pixel by [hue_element] of it and
    leaves the other two channels as they are. *)
Lemma rotate_hue_pixels (hsv : ndarray) (rows cols s : Z) :
  shape hsv = [rows; cols; 3] -> 0 <= s <= 255 ->
  exists out,
    rotate_hue hsv s = Ok out
    /\ shape out = shape hsv
    /\ forall k : nat,
         data out !! (3 * k)%nat = hue_element s <$> data hsv !! (3 * k)%nat
         /\ data out !! (3 * k + 1)%nat = data hsv !! (3 * k + 1)%nat
         /\ data out !! (3 * k + 2)%nat = data hsv !! (3 * k + 2)%nat.
Proof.
  intros Hshape Hs. unfold rotate_hue. rewrite Hshape. cbn [Z.eqb foldr].
  replace ((0 <=? s) && (s <=? 255)) with true
    by (symmetry; apply andb_true_iff; split; apply Z.leb_le; lia).
  eexists. split; [reflexivity|]. split; [reflexivity|].
  intros k. cbn [data]. rewrite !list_lookup_imap.
  destruct (in_channel0_3 k) as (-> & -> & ->).
  split; [reflexivity|].
  split; destruct (data hsv !! _); reflexivity.
Qed.

(** C9: on a pixel of hue 170 (saturation 200, value 210) and
    [hue_shift] 100, line 215 stores the hue 14, where the hue plus the
    shift wrapped modulo 180 is 90: the [uint8] sum 270 wraps to 14 before
    the reduction modulo 180. Saturation and value are unchanged. *)
Theorem rotate_hue_wraps_at_256 :
  rotate_hue {| shape := [1; 1; 3]; data := [170; 200; 210] |} 100
  = Ok {| shape := [1; 1; 3]; data := [14; 200; 210] |}
  /\ rotated_hue 100 170 = 90.
Proof. split; reflexivity. Qed.

(** ** The effect chain in place *)

Section InPlaceFacts.
Context `{OpenCV}.
Variable config : Config.
Variable models : Models.

(** The arrays that existed when the chain started. *)
Variable h0 : InPlace.store.

Lemma prefix_insert_fresh (h : InPlace.store) (l : nat) (a : ndarray) :
  h0 `prefix_of` h -> (length h0 <= l)%nat -> h0 `prefix_of` <[l:=a]> h.
Proof.
  intros [k ->] Hl.
  rewrite insert_app_r_alt by lia. by apply prefix_app_r.
Qed.

Lemma call_tracks f (h : InPlace.store) l a :
  h0 `prefix_of` h -> h !! l = Some a -> tracks h0 (InPlace.call f l) (f a) h.
Proof.
  intros Hpre Hl. unfold tracks, InPlace.call, InPlace.load, InPlace.lift,
    InPlace.alloc, mbind, InPlace.ST_bind.
  rewrite Hl. destruct (f a) as [b|e]; cbn.
  - split; [by apply prefix_app_r|].
    exists (length h). split; [done|]. split.
    + by apply prefix_length.
    + by rewrite lookup_app_r, Nat.sub_diag.
  - done.
Qed.

Lemma tracks_ret (h : InPlace.store) l a :
  h0 `prefix_of` h -> (length h0 <= l)%nat -> h !! l = Some a ->
  tracks h0 (mret l) (Ok a) h.
Proof. intros. split; [done|]. exists l. done. Qed.

Lemma tracks_bind m r k kv (h : InPlace.store) :
  tracks h0 m r h ->
  (forall l b h', h0 `prefix_of` h' -> (length h0 <= l)%nat ->
                  h' !! l = Some b -> tracks h0 (k l) (kv b) h') ->
  tracks h0 (m ≫= k) (r ≫= kv) h.
Proof.
  intros [Hpre Hr] Hk. unfold tracks, mbind, InPlace.ST_bind in *.
  destruct r as [b|e]; cbn.
  - destruct Hr as (l & Hl & Hfresh & Hb).
    destruct (m h) as [r' h']; cbn in *. subst r'.
    by apply Hk.
  - destruct (m h) as [r' h']; cbn in *. subst r'. done.
Qed.

Lemma blur_stage_tracks (h : InPlace.store) l a :
  h0 `prefix_of` h -> h !! l = Some a ->
  tracks h0 (InPlace.blur_stage config l) (blur_stage config a) h.
Proof.
  intros. unfold InPlace.blur_stage, blur_stage.
  by apply (call_tracks (fun src => GaussianBlur src _ 0)).
Qed.

Lemma edge_stage_tracks (h : InPlace.store) l a :
  h0 `prefix_of` h -> h !! l = Some a ->
  tracks h0 (InPlace.edge_stage config l) (edge_stage config a) h.
Proof.
  intros. unfold InPlace.edge_stage, edge_stage.
  apply tracks_bind.
  { by apply (call_tracks (fun src => cvtColor src COLOR_BGR2GRAY)). }
  intros. apply tracks_bind.
  { by apply (call_tracks (fun src => Canny src _ _)). }
  intros. by apply (call_tracks (fun src => cvtColor src COLOR_GRAY2BGR)).
Qed.

(** The slice assignment writes into the array [cvtColor] has just made. *)
Lemma rotate_hue_tracks (h : InPlace.store) l a s :
  h0 `prefix_of` h -> (length h0 <= l)%nat -> h !! l = Some a ->
  tracks h0 (_ ← InPlace.rotate_hue l s; mret l) (rotate_hue a s) h.
Proof.
  intros Hpre Hfresh Hl.
  unfold tracks, InPlace.rotate_hue, InPlace.load, InPlace.lift,
    InPlace.assign, mbind, mret, InPlace.ST_bind, InPlace.ST_ret.
  rewrite Hl. destruct (rotate_hue a s) as [b|e]; cbn; [|done].
  split; [by apply prefix_insert_fresh|].
  exists l. split; [done|]. split; [done|].
  apply list_lookup_insert_eq. by eapply lookup_lt_Some.
Qed.

Lemma color_stage_unfold l (h : InPlace.store) :
  InPlace.color_stage config l h
  = (hsv ← InPlace.call (fun src => cvtColor src COLOR_BGR2HSV) l;
     hsv ← (_ ← InPlace.rotate_hue hsv
                  (hue_shift (color_filter (processing_effects config)));
            mret hsv);
     InPlace.call (fun src => cvtColor src COLOR_HSV2BGR) hsv) h.
Proof.
  unfold InPlace.color_stage, mbind, mret, InPlace.ST_bind, InPlace.ST_ret.
  destruct (InPlace.call _ l h) as [[hsv|e] h1]; [|done].
  destruct (InPlace.rotate_hue hsv _ h1) as [[[]|e] h2]; done.
Qed.

Lemma color_stage_tracks (h : InPlace.store) l a :
  h0 `prefix_of` h -> h !! l = Some a ->
  tracks h0 (InPlace.color_stage config l) (color_stage config a) h.
Proof.
  intros. unfold tracks. rewrite color_stage_unfold.
  apply tracks_bind.
  { by apply (call_tracks (fun src => cvtColor src COLOR_BGR2HSV)). }
  intros. apply tracks_bind; [by apply rotate_hue_tracks|].
  intros. by apply (call_tracks (fun src => cvtColor src COLOR_HSV2BGR)).
Qed.

(** When the model raises, the reference returned is the argument. *)
Lemma apply_ml_enhancement_tracks (h : InPlace.store) l a :
  h0 `prefix_of` h -> (length h0 <= l)%nat -> h !! l = Some a ->
  tracks h0 (InPlace.apply_ml_enhancement models l)
         (enhancement_stage models a) h.
Proof.
  intros Hpre Hfresh Hl.
  unfold InPlace.apply_ml_enhancement, enhancement_stage,
    apply_ml_enhancement, tracks, InPlace.try_except.
  destruct (enhancement models) as [body|].
  - pose proof (call_tracks body h l a Hpre Hl) as [Hp Hr].
    destruct (body a) as [b|e].
    + destruct Hr as (l' & Hl' & ? & ?).
      destruct (InPlace.call body l h) as [r h']; cbn in *. subst r.
      split; [done|]. by exists l'.
    + destruct (InPlace.call body l h) as [r h'] eqn:Hcall; cbn in *.
      subst r. split; [done|]. exists l. split; [done|]. split; [done|].
      unfold InPlace.call, InPlace.load, InPlace.lift, mbind,
        InPlace.ST_bind in Hcall.
      rewrite Hl in Hcall. destruct (body a); by simplify_eq/=.
  - cbn. split; [done|]. exists l. done.
Qed.

Lemma optional_stage_tracks (enabled : bool) st f (h : InPlace.store) l a :
  (forall h l a, h0 `prefix_of` h -> (length h0 <= l)%nat ->
                 h !! l = Some a -> tracks h0 (st l) (f a) h) ->
  h0 `prefix_of` h -> (length h0 <= l)%nat -> h !! l = Some a ->
  tracks h0 (if enabled then st l else mret l)
         (if enabled then f a else Ok a) h.
Proof.
  intros Hst ???. destruct enabled; [by apply Hst|by apply tracks_ret].
Qed.

End InPlaceFacts.

(** The chain in place computes what the chain on values computes, and
    changes no array that existed before. *)
Lemma apply_effects_in_place `{OpenCV} config models
    (h : InPlace.store) (frame : InPlace.loc) (a : ndarray) :
  h !! frame = Some a ->
  tracks h (InPlace.apply_effects config models frame)
         (apply_effects config models a) h.
Proof.
  intros Hframe. unfold InPlace.apply_effects, apply_effects.
  change (tracks h
    (processed_frame ← InPlace.copy frame;
     (fun pf =>
        processed_frame ←
          (if blur_enabled (blur (processing_effects config))
           then InPlace.blur_stage config pf else mret pf);
        (fun pf =>
           processed_frame ←
             (if edge_enabled (edge_detection (processing_effects config))
              then InPlace.edge_stage config pf else mret pf);
           (fun pf =>
              processed_frame ←
                (if color_enabled (color_filter (processing_effects config))
                 then InPlace.color_stage config pf else mret pf);
              (fun pf =>
                 processed_frame ←
                   (if ml_enabled (ml_enhancement (processing_effects config))
                       && bool_decide (is_Some (enhancement models))
                    then InPlace.apply_ml_enhancement models pf
                    else mret pf);
                 mret processed_frame) processed_frame) processed_frame)
          processed_frame) processed_frame)
    (Ok a ≫= (fun pf =>
       (if blur_enabled (blur (processing_effects config))
        then blur_stage config pf else Ok pf) ≫= (fun pf =>
       (if edge_enabled (edge_detection (processing_effects config))
        then edge_stage config pf else Ok pf) ≫= (fun pf =>
       (if color_enabled (color_filter (processing_effects config))
        then color_stage config pf else Ok pf) ≫= (fun pf =>
       (if ml_enabled (ml_enhancement (processing_effects config))
           && bool_decide (is_Some (enhancement models))
        then enhancement_stage models pf else Ok pf) ≫= (fun pf =>
       Ok pf)))))) h).
  apply tracks_bind.
  { unfold InPlace.copy, tracks, InPlace.load, InPlace.alloc, mbind,
      InPlace.ST_bind. rewrite Hframe. cbn.
    split; [by apply prefix_app_r|]. exists (length h).
    split; [done|]. split; [done|]. by rewrite lookup_app_r, Nat.sub_diag. }
  intros. apply tracks_bind.
  { apply optional_stage_tracks; try done.
    intros. by apply blur_stage_tracks. }
  intros. apply tracks_bind.
  { apply optional_stage_tracks; try done.
    intros. by apply edge_stage_tracks. }
  intros. apply tracks_bind.
  { apply optional_stage_tracks; try done.
    intros. by apply color_stage_tracks. }
  intros. apply tracks_bind.
  { apply optional_stage_tracks; try done.
    intros. by apply apply_ml_enhancement_tracks. }
  intros. by apply tracks_ret.
Qed.

(** C10: [apply_effects] leaves the array it is given, and every other
    array that existed before the call, as it was: what it writes into is
    an array made during the call. *)
Theorem apply_effects_keeps_input `{OpenCV} config models
    (h : InPlace.store) (frame : InPlace.loc) :
  h `prefix_of` (InPlace.apply_effects config models frame h).2
  /\ (InPlace.apply_effects config models frame h).2 !! frame = h !! frame.
Proof.
  destruct (h !! frame) as [a|] eqn:Hframe.
  - destruct (apply_effects_in_place config models h frame a Hframe)
      as [Hpre _].
    split; [done|]. by eapply prefix_lookup_Some.
  - unfold InPlace.apply_effects, InPlace.copy, InPlace.load, mbind,
      InPlace.ST_bind. rewrite Hframe. done.
Qed.

(** ** The processor: what each method leaves untouched *)

Section Preserves.
Context `{OpenCV} {B : Type}.
Variable config : Config.
Variable models : Models.
Variable env : Environment.

(** An observation that the process attributes, the child processes and the
    calls other than reads of the capture handle have no part in. *)
Variable f : State -> B.
Hypothesis f_attributes : forall g s, f (set_attributes g s) = f s.
Hypothesis f_processes : forall g s, f (set_processes g s) = f s.
Hypothesis f_log :
  forall c b s, is_cap_read c = false -> f (log_event (c, b) s) = f s.

Lemma preserves_ret {A} (a : A) : preserves f (mret a : M A).
Proof. done. Qed.

Lemma preserves_bind {A A'} (m : M A) (k : A -> M A') :
  preserves f m -> (forall a, preserves f (k a)) -> preserves f (m ≫= k).
Proof.
  intros Hm Hk s. unfold mbind, M_bind. specialize (Hm s).
  destruct (m s) as [[a|e] s']; cbn in *; [|done].
  by rewrite Hk.
Qed.

Lemma preserves_try_except {A} (body : M A) handler :
  preserves f body -> (forall e, preserves f (handler e)) ->
  preserves f (try_except body handler).
Proof.
  intros Hm Hk s. unfold try_except. specialize (Hm s).
  destruct (body s) as [[a|e] s']; cbn in *; [done|].
  by rewrite Hk.
Qed.

Lemma preserves_try_finally {A} (body : M A) cleanup :
  preserves f body -> preserves f cleanup ->
  preserves f (try_finally body cleanup).
Proof.
  intros Hm Hk s. unfold try_finally. specialize (Hm s).
  destruct (body s) as [r s']; cbn in *. specialize (Hk s').
  destruct (cleanup s') as [[[]|e] s'']; cbn in *; congruence.
Qed.

Lemma preserves_for_each {A} (xs : list A) body :
  (forall x, preserves f (body x)) -> preserves f (for_each xs body).
Proof.
  intros Hbody. induction xs as [|x xs IH]; cbn [for_each].
  - apply preserves_ret.
  - apply preserves_bind; [apply Hbody|]. intros _. apply IH.
Qed.

Lemma preserves_if {A} (b : bool) (m1 m2 : M A) :
  preserves f m1 -> preserves f m2 -> preserves f (if b then m1 else m2).
Proof. by destruct b. Qed.

Lemma preserves_of_result {A} (r : result A) : preserves f (of_result r).
Proof. done. Qed.

Lemma preserves_logger_error : preserves f logger_error.
Proof. done. Qed.

Lemma preserves_external c e :
  is_cap_read c = false -> preserves f (external env c e).
Proof.
  intros Hc s. unfold external.
  destruct (outcome env _ _); cbn; by rewrite ?f_processes, f_log.
Qed.

Lemma preserves_perform c :
  is_cap_read c = false -> preserves f (perform c).
Proof. intros Hc s. unfold perform. cbn. by rewrite f_processes, f_log. Qed.

Lemma preserves_Popen cmd : preserves f (Popen env cmd).
Proof.
  intros s. unfold Popen.
  pose proof (preserves_external (subprocess_Popen cmd) OSError eq_refl s).
  by destruct (external env _ _ s) as [[[]|e] s'].
Qed.

Lemma preserves_hasattr name : preserves f (hasattr name).
Proof. done. Qed.

Lemma preserves_setattr name p : preserves f (setattr name p).
Proof. intros s. apply f_attributes. Qed.

Lemma preserves_getattr name : preserves f (getattr name).
Proof. intros s. unfold getattr. by destruct (attributes s !! name). Qed.

Lemma preserves_delattr name : preserves f (delattr name).
Proof. intros s. apply f_attributes. Qed.

Ltac preserved := repeat (intros; first
  [ apply preserves_bind | apply preserves_try_except
  | apply preserves_try_finally | apply preserves_for_each
  | apply preserves_if | apply preserves_ret | apply preserves_of_result
  | apply preserves_logger_error
  | apply preserves_external; reflexivity
  | apply preserves_perform; reflexivity
  | apply preserves_Popen | apply preserves_hasattr
  | apply preserves_setattr | apply preserves_getattr
  | apply preserves_delattr ]).

Lemma preserves_output_webrtc sid frame o :
  preserves f (output_webrtc sid frame o).
Proof. unfold output_webrtc. preserved. Qed.

Lemma preserves_output_hls sid frame o :
  preserves f (output_hls config env sid frame o).
Proof. unfold output_hls. preserved. Qed.

Lemma preserves_output_dash sid frame o :
  preserves f (output_dash config env sid frame o).
Proof. unfold output_dash. preserved. Qed.

Lemma preserves_deliver sid frame o :
  preserves f (deliver config env sid frame o).
Proof.
  unfold deliver.
  auto using preserves_if, preserves_output_webrtc, preserves_output_hls,
    preserves_output_dash, preserves_ret.
Qed.

Lemma preserves_output_frame sid frame :
  preserves f (output_frame config env sid frame).
Proof.
  intros s. unfold output_frame.
  apply preserves_for_each. apply preserves_deliver.
Qed.

Lemma preserves_process_frame sid frame :
  preserves f (process_frame config models env sid frame).
Proof.
  unfold process_frame.
  apply preserves_try_except; [|intros; apply preserves_logger_error].
  apply preserves_bind; [apply preserves_of_result|].
  intros. apply preserves_output_frame.
Qed.

End Preserves.

Lemma frames_read_log c b s :
  frames_read (log_event (c, b) s)
  = (frames_read s + if is_cap_read c && b then 1 else 0)%nat.
Proof.
  unfold frames_read. cbn. rewrite List.filter_app, length_app. cbn.
  by destruct (is_cap_read c && b).
Qed.

Section RegistryFacts.
Context `{OpenCV}.
Variable config : Config.
Variable models : Models.
Variable env : Environment.

Lemma keeps_output_frame sid frame :
  preserves active_streams (output_frame config env sid frame).
Proof. by apply preserves_output_frame. Qed.

(** [process_frame] never writes to the registry. *)
Lemma keeps_process_frame sid frame :
  preserves active_streams (process_frame config models env sid frame).
Proof. by apply preserves_process_frame. Qed.

(** [process_frame] does not read from the capture handle. *)
Lemma process_frame_reads_nothing sid frame :
  preserves frames_read (process_frame config models env sid frame).
Proof.
  apply preserves_process_frame; try done.
  intros c b s Hc. by rewrite frames_read_log, Hc, Nat.add_0_r.
Qed.

(** [process_frame] catches every exception. *)
Lemma process_frame_returns sid frame s :
  (process_frame config models env sid frame s).1 = Ok tt.
Proof.
  unfold process_frame, try_except.
  match goal with
  | |- context [match ?m with _ => _ end] => destruct m as [[[]|e] s']
  end; done.
Qed.

End RegistryFacts.

(** ** The registry: [add_stream] and [get_stream_stats] *)

Section SupervisorFacts.
Context `{OpenCV}.
Variable config : Config.
Variable models : Models.
Variable env : Environment.

Lemma for_each_process_frame_returns sid (pending : list ndarray) s :
  (for_each pending (process_frame config models env sid) s).1 = Ok tt.
Proof.
  revert s. induction pending as [|frame pending IH]; intros s; [done|].
  cbn [for_each]. unfold mbind, M_bind.
  pose proof (process_frame_returns config models env sid frame s) as Hok.
  destruct (process_frame config models env sid frame s) as [r s'].
  cbn in Hok. subst r. apply IH.
Qed.

(** C1: a stream registered by [add_stream] has [frame_count] 0, and after
    any number of frames have gone through [process_frame] (each call
    returns normally) the counter is still 0: no frame increments it. *)
Theorem frame_count_stays_zero sid input_config output_configs now
    (processed : list ndarray) s :
  frame_count <$>
    active_streams (add_stream sid input_config output_configs now s).2 !! sid
  = Some 0
  /\ (for_each processed (process_frame config models env sid)
        (add_stream sid input_config output_configs now s).2).1 = Ok tt
  /\ frame_count <$>
       active_streams
         (for_each processed (process_frame config models env sid)
            (add_stream sid input_config output_configs now s).2).2 !! sid
     = Some 0.
Proof.
  assert (frame_count <$>
            active_streams
              (add_stream sid input_config output_configs now s).2 !! sid
          = Some 0) as Hadd.
  { cbn. by rewrite lookup_insert_eq. }
  split; [done|]. split; [apply for_each_process_frame_returns|].
  rewrite preserves_for_each; [done|].
  intros frame. apply keeps_process_frame.
Qed.

(** C7: [add_stream] writes the new entry over whatever was registered under
    the id and touches nothing else: the other entries, the process
    attributes, the child processes and the calls made are as before. A
    sink process of the replaced stream is neither closed nor terminated,
    and stays behind its attribute. *)
Theorem add_stream_overwrites_entry_only sid input_config output_configs now s :
  (add_stream sid input_config output_configs now s).1 = Ok tt
  /\ active_streams (add_stream sid input_config output_configs now s).2 !! sid
     = Some {| input := input_config; outputs := output_configs;
               start_time := now; frame_count := 0 |}
  /\ delete sid
       (active_streams (add_stream sid input_config output_configs now s).2)
     = delete sid (active_streams s)
  /\ attributes (add_stream sid input_config output_configs now s).2
     = attributes s
  /\ processes (add_stream sid input_config output_configs now s).2
     = processes s
  /\ trace (add_stream sid input_config output_configs now s).2 = trace s.
Proof.
  cbn. split; [done|]. split; [by rewrite lookup_insert_eq|].
  split; [by rewrite delete_insert_eq|]. done.
Qed.

(** C8: [get_stream_stats] changes nothing; for an id that is not
    registered it returns [None], and for a registered one the duration
    [current_time - start_time], the entry's [frame_count], the rate
    [frame_count / duration] (0 when the duration is not positive), the
    input type and the output types in order. *)
Theorem get_stream_stats_reads sid current_time s :
  (get_stream_stats sid current_time s).2 = s
  /\ match active_streams s !! sid with
     | None => (get_stream_stats sid current_time s).1 = Ok None
     | Some stream =>
         exists stats,
           (get_stream_stats sid current_time s).1 = Ok (Some stats)
           /\ stats_stream_id stats = sid
           /\ duration stats = (current_time - start_time stream)%Q
           /\ stats_frame_count stats = frame_count stream
           /\ ((duration stats <= 0)%Q -> fps stats = 0%Q)
           /\ ((0 < duration stats)%Q ->
               fps stats
               = (inject_Z (frame_count stream) / duration stats)%Q)
           /\ stats_input_type stats = input_type (input stream)
           /\ output_types stats = map output_type (outputs stream)
     end.
Proof.
  unfold get_stream_stats.
  destruct (active_streams s !! sid) as [stream|]; [|done].
  split; [done|]. eexists. split; [reflexivity|]. cbn.
  split; [done|]. split; [done|]. split; [done|].
  split; [|split; [|done]].
  - intros Hle. apply Qle_bool_iff in Hle. by rewrite Hle.
  - intros Hlt. destruct (Qle_bool _ 0) eqn:Hle; [|done].
    apply Qle_bool_iff in Hle. by apply Qlt_not_le in Hlt.
Qed.

End SupervisorFacts.

(** ** Fan-out to the sinks *)

Section FanOut.
Context `{OpenCV}.
Variable config : Config.
Variable env : Environment.

(** Directories can be made. *)
Hypothesis makedirs_ok : forall t path, outcome env t (os_makedirs path) = true.

Variable frame : ndarray.

(** The frame is an image: it has a height and a width. *)
Hypothesis frame_2d : (2 <= length (shape frame))%nat.

Ltac run_sink :=
  repeat first
    [ progress cbn
    | rewrite makedirs_ok
    | rewrite lookup_insert_eq
    | match goal with
      | |- context [outcome env ?t ?c] =>
          let E := fresh "E" in destruct (outcome env t c) eqn:E
      end ].

Lemma output_webrtc_attempt sid o s :
  exists evs,
    output_webrtc sid frame o s
    = (Ok tt, (output_webrtc sid frame o s).2)
    /\ trace (output_webrtc sid frame o s).2 = trace s ++ evs
    /\ match imencode_jpg frame 80 with
       | Ok encoded => evs = [(send_to_webrtc_client sid encoded, true)]
       | Err _ => evs = []
       end.
Proof.
  unfold output_webrtc, try_except, of_result, perform, mbind, M_bind.
  destruct (imencode_jpg frame 80) as [encoded|e]; cbn.
  - eexists. split; [done|]. split; [done|]. done.
  - exists []. by rewrite app_nil_r.
Qed.

Lemma output_hls_attempt sid o s :
  exists evs,
    output_hls config env sid frame o s
    = (Ok tt, (output_hls config env sid frame o s).2)
    /\ trace (output_hls config env sid frame o s).2 = trace s ++ evs
    /\ segmented_attempt ("output/" +:+ sid +:+ "/hls") (tobytes frame) evs.
Proof.
  destruct (shape frame) as [|height [|width dims]] eqn:Hshape;
    [cbn in frame_2d; lia|cbn in frame_2d; lia|].
  unfold output_hls, try_except, of_result, Popen, external, hasattr,
    setattr, getattr, shape_at, logger_error, segmented_attempt,
    mbind, mret, M_bind, M_ret.
  rewrite Hshape. cbn. rewrite makedirs_ok. cbn.
  destruct (attributes s !! hls_process sid) as [process|] eqn:Hattr.
  - cbn. rewrite Hattr. run_sink;
      (eexists; split; [reflexivity|]; split;
       [by rewrite <- ?(assoc_L (++))|]; eexists; split; [reflexivity|];
       right; exists [], process; split; [by left|]; cbn; eauto).
  - cbn. run_sink;
      (eexists; split; [reflexivity|]; split;
       [by rewrite <- ?(assoc_L (++))|]; eexists; split; [reflexivity|];
       first
         [ left; eexists; reflexivity
         | right; eexists [_], _; split; [right; eauto|]; cbn; eauto ]).
Qed.

Lemma output_dash_attempt sid o s :
  exists evs,
    output_dash config env sid frame o s
    = (Ok tt, (output_dash config env sid frame o s).2)
    /\ trace (output_dash config env sid frame o s).2 = trace s ++ evs
    /\ segmented_attempt ("output/" +:+ sid +:+ "/dash") (tobytes frame) evs.
Proof.
  destruct (shape frame) as [|height [|width dims]] eqn:Hshape;
    [cbn in frame_2d; lia|cbn in frame_2d; lia|].
  unfold output_dash, try_except, of_result, Popen, external, hasattr,
    setattr, getattr, shape_at, logger_error, segmented_attempt,
    mbind, mret, M_bind, M_ret.
  rewrite Hshape. cbn. rewrite makedirs_ok. cbn.
  destruct (attributes s !! dash_process sid) as [process|] eqn:Hattr.
  - cbn. rewrite Hattr. run_sink;
      (eexists; split; [reflexivity|]; split;
       [by rewrite <- ?(assoc_L (++))|]; eexists; split; [reflexivity|];
       right; exists [], process; split; [by left|]; cbn; eauto).
  - cbn. run_sink;
      (eexists; split; [reflexivity|]; split;
       [by rewrite <- ?(assoc_L (++))|]; eexists; split; [reflexivity|];
       first
         [ left; eexists; reflexivity
         | right; eexists [_], _; split; [right; eauto|]; cbn; eauto ]).
Qed.

(** One turn of the loop never raises, and adds to the trace what its own
    sink's attempt adds. *)
Lemma deliver_attempt sid o s :
  exists evs,
    deliver config env sid frame o s
    = (Ok tt, (deliver config env sid frame o s).2)
    /\ trace (deliver config env sid frame o s).2 = trace s ++ evs
    /\ sink_attempt sid frame o evs.
Proof.
  unfold deliver, sink_attempt.
  destruct (String.eqb (output_type o) "webrtc");
    [apply output_webrtc_attempt|].
  destruct (String.eqb (output_type o) "hls"); [apply output_hls_attempt|].
  destruct (String.eqb (output_type o) "dash"); [apply output_dash_attempt|].
  exists []. by rewrite app_nil_r.
Qed.

Lemma for_each_deliver_attempts sid (output_configs : list OutputConfig) s :
  exists evss,
    for_each output_configs (deliver config env sid frame) s
    = (Ok tt, (for_each output_configs (deliver config env sid frame) s).2)
    /\ trace (for_each output_configs (deliver config env sid frame) s).2
       = trace s ++ concat evss
    /\ Forall2 (sink_attempt sid frame) output_configs evss.
Proof.
  revert s. induction output_configs as [|o rest IH]; intros s.
  - exists []. cbn. by rewrite app_nil_r.
  - destruct (deliver_attempt sid o s) as (evs & Hrun & Htrace & Hevs).
    cbn [for_each]. unfold mbind, M_bind. rewrite Hrun.
    destruct (IH (deliver config env sid frame o s).2)
      as (evss & Hrun' & Htrace' & Hevss).
    exists (evs :: evss). split; [done|]. split.
    + rewrite Htrace', Htrace. cbn. by rewrite (assoc_L (++)).
    + by constructor.
Qed.

(** When every directory can be made, [output_frame] goes through every
    sink of the stream, in order, whatever fails in spawning an encoder or
    writing to one: it never raises, what it adds to the trace is one
    attempt per sink, each ended only by that sink's own failure, and the
    registry is as before. *)
Theorem sink_failure_isolated sid s :
  exists evss,
    (output_frame config env sid frame s).1 = Ok tt
    /\ active_streams (output_frame config env sid frame s).2
       = active_streams s
    /\ trace (output_frame config env sid frame s).2 = trace s ++ concat evss
    /\ Forall2 (sink_attempt sid frame)
         (default [] (outputs <$> active_streams s !! sid)) evss.
Proof.
  pose proof (keeps_output_frame config env sid frame s) as Hkeep.
  unfold output_frame in *.
  replace (match active_streams s !! sid with
           | Some stream => outputs stream
           | None => []
           end)
    with (default [] (outputs <$> active_streams s !! sid)) in *
    by (by destruct (active_streams s !! sid)).
  destruct (for_each_deliver_attempts sid
              (default [] (outputs <$> active_streams s !! sid)) s)
    as (evss & Hrun & Htrace & Hevss).
  exists evss. rewrite Hrun at 1. done.
Qed.

End FanOut.

(** ** Removing a stream *)

Lemma effect_keeps_stopped c ps q : stopped ps q -> stopped (effect c ps) q.
Proof.
  unfold stopped. intros Hq.
  destruct c; cbn; try done;
    try (rewrite list_lookup_alter; case_decide; subst; [|done];
         destruct (ps !! q); cbn in *; congruence).
  rewrite lookup_app_l; [done|].
  destruct (ps !! q) eqn:E; [by eapply lookup_lt_Some|done].
Qed.

Lemma effect_stops c ps p :
  (c = kill p \/ exists timeout, c = wait p timeout) ->
  is_Some (ps !! p) -> stopped (effect c ps) p.
Proof.
  unfold stopped. intros [->|[timeout ->]] [q Hq]; cbn;
    by rewrite list_lookup_alter_eq, Hq.
Qed.

Lemma effect_keeps_handles c ps p :
  is_Some (ps !! p) -> is_Some (effect c ps !! p).
Proof.
  intros [q Hq].
  destruct c; cbn; eauto;
    try (rewrite list_lookup_alter; case_decide; subst; rewrite Hq; by eauto).
  rewrite lookup_app_l; [eauto|]. by eapply lookup_lt_Some.
Qed.

Lemma hls_dash_distinct sid : hls_process sid <> dash_process sid.
Proof. discriminate. Qed.

Section Removal.
Variable env : Environment.

#[local] Arguments effect : simpl never.

Ltac run_teardown :=
  repeat first
    [ progress cbn
    | match goal with
      | |- context [outcome env ?t ?c] =>
          let E := fresh "E" in destruct (outcome env t c) eqn:E
      end ].

Lemma teardown_spec process_attr s :
  exists evs,
    teardown env process_attr s = (Ok tt, (teardown env process_attr s).2)
    /\ active_streams (teardown env process_attr s).2 = active_streams s
    /\ attributes (teardown env process_attr s).2
       = delete process_attr (attributes s)
    /\ trace (teardown env process_attr s).2 = trace s ++ evs
    /\ teardown_of (attributes s !! process_attr) evs
    /\ (forall q, stopped (processes s) q ->
                  stopped (processes (teardown env process_attr s).2) q)
    /\ (forall q, is_Some (processes s !! q) ->
                  is_Some (processes (teardown env process_attr s).2 !! q))
    /\ (forall p, attributes s !! process_attr = Some p ->
                  is_Some (processes s !! p) ->
                  stopped (processes (teardown env process_attr s).2) p).
Proof.
  unfold teardown, try_except, external, perform, hasattr, getattr, delattr,
    mbind, mret, M_bind, M_ret. cbn.
  destruct (attributes s !! process_attr) as [process|] eqn:Hattr; cbn.
  - rewrite Hattr. unfold torn_down.
    run_teardown;
      (eexists; split; [reflexivity|]; split; [done|]; split; [done|];
       split; [by rewrite <- ?(assoc_L (++))|];
       split; [by eauto 6|];
       split; [intros; by repeat apply effect_keeps_stopped|];
       split; [intros; by repeat apply effect_keeps_handles|];
       intros p [= <-] Hp;
       first
         [ apply effect_stops; [by eauto|];
           by repeat apply effect_keeps_handles
         | apply effect_keeps_stopped, effect_stops; [by eauto|];
           by repeat apply effect_keeps_handles ]).
  - exists []. rewrite app_nil_r, delete_id by done. done.
Qed.

Lemma remove_stream_absent sid s :
  active_streams s !! sid = None -> remove_stream env sid s = (Ok tt, s).
Proof.
  intros Habsent. unfold remove_stream, is_active, mbind, M_bind.
  by rewrite Habsent.
Qed.

Lemma remove_stream_present sid s :
  is_Some (active_streams s !! sid) ->
  exists evs_hls evs_dash,
    remove_stream env sid s = (Ok tt, (remove_stream env sid s).2)
    /\ active_streams (remove_stream env sid s).2
       = delete sid (active_streams s)
    /\ attributes (remove_stream env sid s).2
       = delete (dash_process sid) (delete (hls_process sid) (attributes s))
    /\ trace (remove_stream env sid s).2 = trace s ++ evs_hls ++ evs_dash
    /\ teardown_of (attributes s !! hls_process sid) evs_hls
    /\ teardown_of (attributes s !! dash_process sid) evs_dash
    /\ forall p,
         attributes s !! hls_process sid = Some p
         \/ attributes s !! dash_process sid = Some p ->
         is_Some (processes s !! p) ->
         stopped (processes (remove_stream env sid s).2) p.
Proof.
  intros Hpresent.
  unfold remove_stream, is_active, del_active, mbind, mret, M_bind, M_ret.
  rewrite bool_decide_eq_true_2 by done. cbn -[teardown].
  unfold mbind, mret, M_bind, M_ret.
  set (s1 := set_active_streams (delete sid) s).
  destruct (teardown_spec (hls_process sid) s1)
    as (evs1 & Hrun1 & Hreg1 & Hattr1 & Htrace1 & Hevs1 & Hkeep1 & Hlive1
        & Hstop1).
  rewrite Hrun1. cbn -[teardown].
  set (s2 := (teardown env (hls_process sid) s1).2) in *.
  destruct (teardown_spec (dash_process sid) s2)
    as (evs2 & Hrun2 & Hreg2 & Hattr2 & Htrace2 & Hevs2 & Hkeep2 & Hlive2
        & Hstop2).
  rewrite Hrun2. cbn -[teardown].
  set (s3 := (teardown env (dash_process sid) s2).2) in *.
  exists evs1, evs2.
  split; [done|]. split; [by rewrite Hreg2, Hreg1|].
  split; [by rewrite Hattr2, Hattr1|].
  split; [by rewrite Htrace2, Htrace1, (assoc_L (++))|].
  split; [done|]. split.
  - rewrite Hattr1, lookup_delete_ne in Hevs2; [done|].
    apply hls_dash_distinct.
  - intros p [Hp|Hp] Hproc.
    + apply Hkeep2, Hstop1; done.
    + apply Hstop2; [|by apply Hlive1].
      rewrite Hattr1, lookup_delete_ne; [done|]. apply hls_dash_distinct.
Qed.

(** C4: for an id that is not registered [remove_stream] does nothing and
    raises nothing, so a second call right after a first one does nothing;
    for a registered id it erases the entry and takes down the process
    behind each of the two attributes of the id (pipe closed, termination
    requested, a wait of five seconds, a kill when the wait times out),
    and removes the attributes. *)
Theorem remove_stream_tears_down sid s :
  (active_streams s !! sid = None -> remove_stream env sid s = (Ok tt, s))
  /\ remove_stream env sid (remove_stream env sid s).2
     = (Ok tt, (remove_stream env sid s).2)
  /\ (is_Some (active_streams s !! sid) ->
      exists evs_hls evs_dash,
        (remove_stream env sid s).1 = Ok tt
        /\ active_streams (remove_stream env sid s).2 !! sid = None
        /\ active_streams (remove_stream env sid s).2
           = delete sid (active_streams s)
        /\ attributes (remove_stream env sid s).2
           = delete (dash_process sid)
               (delete (hls_process sid) (attributes s))
        /\ trace (remove_stream env sid s).2
           = trace s ++ evs_hls ++ evs_dash
        /\ teardown_of (attributes s !! hls_process sid) evs_hls
        /\ teardown_of (attributes s !! dash_process sid) evs_dash
        /\ forall p,
             attributes s !! hls_process sid = Some p
             \/ attributes s !! dash_process sid = Some p ->
             is_Some (processes s !! p) ->
             stopped (processes (remove_stream env sid s).2) p).
Proof.
  split; [apply remove_stream_absent|]. split.
  - apply remove_stream_absent.
    destruct (active_streams s !! sid) as [stream|] eqn:Hsid.
    + destruct (remove_stream_present sid s) as (? & ? & _ & -> & _);
        [by rewrite Hsid|].
      apply lookup_delete_eq.
    + by rewrite remove_stream_absent.
  - intros Hpresent.
    destruct (remove_stream_present sid s Hpresent)
      as (evs1 & evs2 & Hrun & Hreg & Hattr & Htrace & He1 & He2 & Hstop).
    exists evs1, evs2. rewrite Hrun at 1.
    split; [done|]. split; [rewrite Hreg; apply lookup_delete_eq|]. done.
Qed.

End Removal.

(** ** A stage that raises *)

Section StageFailure.
Context `{OpenCV}.
Variable config : Config.
Variable models : Models.
Variable env : Environment.

(** C5: the blur, edge detection and colour filter stages have no handler
    of their own: when one of them raises, [apply_effects] raises, and
    [process_frame] catches the exception and drops the frame (it returns
    normally, nothing is sent to a sink and the state is as before). The
    enhancement stage never raises: when the model fails, it returns the
    frame it was given. *)
Theorem stage_failure_drops_frame sid frame s :
  (forall before st after x e,
      List.filter (stage_enabled config models) stage_order
      = before ++ st :: after ->
      run_chain config models before frame = Ok x ->
      run_stage config models st x = Err e ->
      apply_effects config models frame = Err e
      /\ process_frame config models env sid frame s = (Ok tt, s))
  /\ (forall body e,
         enhancement models = Some body -> body frame = Err e ->
         apply_ml_enhancement models frame = frame
         /\ enhancement_stage models frame = Ok frame).
Proof.
  split.
  - intros before st after x e Hsplit Hbefore Hst.
    assert (apply_effects config models frame = Err e) as Hraises.
    { rewrite apply_effects_run_chain, Hsplit.
      by eapply run_chain_stage_raises. }
    split; [done|].
    unfold process_frame, try_except, of_result, mbind, M_bind.
    by rewrite Hraises.
  - intros body e Hbody Hfails.
    unfold enhancement_stage, apply_ml_enhancement.
    by rewrite Hbody, Hfails.
Qed.

End StageFailure.

(** ** The pull loop *)

Section PullLoop.
Context `{OpenCV}.
Variable config : Config.
Variable models : Models.
Variable env : Environment.

Lemma remove_stream_returns sid s :
  remove_stream env sid s = (Ok tt, (remove_stream env sid s).2).
Proof.
  destruct (active_streams s !! sid) as [stream|] eqn:Hsid.
  - destruct (remove_stream_present env sid s) as (? & ? & Hrun & _);
      [by rewrite Hsid|]. done.
  - by rewrite remove_stream_absent.
Qed.

Lemma run_commands_return (others : list command) s :
  for_each others (run_command env) s
  = (Ok tt, (for_each others (run_command env) s).2).
Proof.
  revert s. induction others as [|c others IH]; intros s; [done|].
  cbn [for_each]. unfold mbind, M_bind.
  assert (run_command env c s = (Ok tt, (run_command env c s).2)) as ->.
  { destruct c; [done|]. apply remove_stream_returns. }
  apply IH.
Qed.

Lemma read_loop_step sid frame others rest s :
  read_loop config models env sid ((frame, others) :: rest) s
  = if bool_decide
         (is_Some (active_streams
                     (after_frame config models env sid frame others s)
                   !! sid))
    then read_loop config models env sid rest
           (after_frame config models env sid frame others s)
    else (Ok tt, after_frame config models env sid frame others s).
Proof.
  unfold after_frame. cbn [read_loop]. unfold mbind, M_bind, is_active.
  cbn [perform fst snd].
  pose proof (process_frame_returns config models env sid frame
                (perform cap_read s).2) as Hok.
  destruct (process_frame config models env sid frame _) as [r s1].
  cbn in Hok. subst r. cbn [snd].
  rewrite run_commands_return. cbn [snd].
  by destruct (bool_decide _).
Qed.

(** With no call from another thread, the loop reads every frame and
    leaves the registry as it was. *)
Lemma read_loop_uninterrupted sid (pending : list (ndarray * list command)) s :
  Forall (fun fo => fo.2 = []) pending ->
  is_Some (active_streams s !! sid) ->
  (read_loop config models env sid pending s).1 = Ok tt
  /\ active_streams (read_loop config models env sid pending s).2
     = active_streams s
  /\ frames_read (read_loop config models env sid pending s).2
     = (frames_read s + length pending)%nat.
Proof.
  intros Hquiet. revert s.
  induction Hquiet as [|[frame others] rest Hothers _ IH]; intros s Hsid.
  - cbn [read_loop fst snd length]. split; [done|]. split; [done|].
    rewrite frames_read_log. cbn. lia.
  - cbn in Hothers. subst others. rewrite read_loop_step.
    assert (active_streams (after_frame config models env sid frame [] s)
            = active_streams s) as Hreg.
    { unfold after_frame. cbn [for_each]. cbn [mret M_ret snd].
      by rewrite keeps_process_frame. }
    assert (frames_read (after_frame config models env sid frame [] s)
            = S (frames_read s)) as Hreads.
    { unfold after_frame. cbn [for_each]. cbn [mret M_ret snd].
      rewrite process_frame_reads_nothing. cbn [perform snd].
      unfold frames_read. cbn. rewrite List.filter_app, length_app. cbn.
      lia. }
    rewrite Hreg, bool_decide_eq_true_2 by done.
    destruct (IH (after_frame config models env sid frame [] s))
      as (Hok & Hkeep & Hcount); [by rewrite Hreg|].
    split; [done|]. split; [by rewrite Hkeep|].
    rewrite Hcount, Hreads. cbn. lia.
Qed.

(** The loop stops at the first frame after which the stream is not
    registered, and reads nothing more. *)
Lemma read_loop_cancelled sid read frame others rest s :
  stays_registered config models env sid read s ->
  active_streams
    (after_frame config models env sid frame others
       (after_frames config models env sid read s)) !! sid = None ->
  read_loop config models env sid (read ++ (frame, others) :: rest) s
  = (Ok tt, after_frame config models env sid frame others
              (after_frames config models env sid read s)).
Proof.
  revert s. induction read as [|[frame' others'] read IH]; intros s Hreg Hgone.
  - cbn [app after_frames foldl] in *. by rewrite read_loop_step, Hgone.
  - destruct Hreg as [Hfirst Hreg]. cbn [fst snd] in *.
    cbn [app]. rewrite read_loop_step.
    rewrite bool_decide_eq_true_2 by done. by apply IH.
Qed.

(** C6: when the handle does not open, [process_with_opencv] processes no
    frame and changes nothing, the registry included. When it opens, the
    stream is looked up in the registry after each frame and the loop
    stops, the handle released, at the first frame after which it is not
    there; with no call from another thread every frame is read, the handle
    is released, and the registry is as before: the stream is still
    registered. *)
Theorem pull_loop_keeps_registry input_url sid s :
  (isOpened (VideoCapture env input_url) = false ->
   process_with_opencv config models env input_url sid s = (Ok tt, s))
  /\ (isOpened (VideoCapture env input_url) = true ->
      Forall (fun fo => fo.2 = []) (frames (VideoCapture env input_url)) ->
      is_Some (active_streams s !! sid) ->
      (process_with_opencv config models env input_url sid s).1 = Ok tt
      /\ active_streams
           (process_with_opencv config models env input_url sid s).2
         = active_streams s
      /\ frames_read (process_with_opencv config models env input_url sid s).2
         = (frames_read s + length (frames (VideoCapture env input_url)))%nat
      /\ last (trace (process_with_opencv config models env input_url sid s).2)
         = Some (cap_release, true))
  /\ (forall read frame others rest,
         isOpened (VideoCapture env input_url) = true ->
         frames (VideoCapture env input_url)
         = read ++ (frame, others) :: rest ->
         stays_registered config models env sid read s ->
         active_streams
           (after_frame config models env sid frame others
              (after_frames config models env sid read s)) !! sid = None ->
         process_with_opencv config models env input_url sid s
         = (Ok tt,
            (perform cap_release
               (after_frame config models env sid frame others
                  (after_frames config models env sid read s))).2)).
Proof.
  unfold process_with_opencv. split; [|split].
  - by intros ->.
  - intros -> Hquiet Hsid. cbn [negb]. unfold try_finally.
    destruct (read_loop_uninterrupted sid _ s Hquiet Hsid)
      as (Hok & Hkeep & Hcount).
    destruct (read_loop config models env sid _ s) as [r s']. cbn in *.
    subst r. split; [done|]. split; [done|]. split.
    + unfold frames_read in *. cbn.
      rewrite List.filter_app, length_app. cbn. lia.
    + apply last_snoc.
  - intros read frame others rest -> Hframes Hreg Hgone. cbn [negb].
    unfold try_finally. rewrite Hframes, read_loop_cancelled by done. done.
Qed.

End PullLoop.

(** ** Child processes and their attributes *)

Lemma effect_length c ps :
  is_spawn c = false -> length (effect c ps) = length ps.
Proof. destruct c; cbn; intros; try done; by rewrite length_alter. Qed.

(** A call other than a spawn starts no process. *)
Lemma effect_running c ps p q' :
  is_spawn c = false ->
  effect c ps !! p = Some q' -> running q' = true ->
  exists q, ps !! p = Some q /\ running q = true.
Proof.
  intros Hc Hp Hrun.
  destruct c; cbn in *; try done; eauto;
    (rewrite list_lookup_alter in Hp; case_decide; subst;
     [destruct (ps !! _) as [q|]; simplify_eq/=; eauto|eauto]).
Qed.

Lemma held_effect c attrs ps :
  is_spawn c = false -> held attrs ps -> held attrs (effect c ps).
Proof.
  intros Hc Hheld p q' Hp Hrun.
  destruct (effect_running c ps p q' Hc Hp Hrun) as (q & Hq & Hq').
  by eapply Hheld.
Qed.

(** A process that is spawned and put behind an attribute that was not
    set. *)
Lemma held_spawn cmd name attrs ps :
  attrs !! name = None -> held attrs ps ->
  held (<[name:=length ps]> attrs) (effect (subprocess_Popen cmd) ps).
Proof.
  intros Hname Hheld p q Hp Hrun. cbn in Hp.
  destruct (decide (p < length ps)%nat) as [Hlt|Hge].
  - rewrite lookup_app_l in Hp by done.
    destruct (Hheld p q Hp Hrun) as (name' & Hname').
    exists name'. rewrite lookup_insert_ne; [done|]. congruence.
  - apply lookup_lt_Some in Hp as Hlen. rewrite length_app in Hlen.
    cbn in Hlen. exists name.
    replace p with (length ps) by lia. apply lookup_insert_eq.
Qed.

Lemma owned_insert registry attrs sid name p :
  is_Some (registry !! sid) ->
  name = hls_process sid \/ name = dash_process sid ->
  owned registry attrs -> owned registry (<[name:=p]> attrs).
Proof.
  intros Hsid Hname Howned name' p' Hlookup.
  destruct (decide (name = name')) as [<-|Hne]; [by eauto|].
  rewrite lookup_insert_ne in Hlookup by done. by eapply Howned.
Qed.

Section ConsistentSinks.
Context `{OpenCV}.
Variable config : Config.
Variable env : Environment.

#[local] Arguments effect : simpl never.

Ltac run_cases s frame :=
  repeat first
    [ progress cbn
    | rewrite lookup_insert_eq
    | match goal with
      | |- context [outcome env ?t ?c] =>
          let E := fresh "E" in destruct (outcome env t c) eqn:E
      | |- context [shape frame !! ?i] =>
          let E := fresh "E" in destruct (shape frame !! i) eqn:E
      | |- context [attributes s !! ?n] =>
          let E := fresh "E" in destruct (attributes s !! n) eqn:E
      end ].

Ltac keep_consistent sid :=
  split;
  [ first [ done | by eapply (owned_insert _ _ sid); eauto ]
  | repeat first
      [ done
      | apply held_effect; [reflexivity|]
      | apply held_spawn; [done|] ] ].

Lemma output_webrtc_consistent sid frame o s :
  consistent s -> consistent (output_webrtc sid frame o s).2.
Proof.
  intros [Howned Hheld]. unfold consistent.
  unfold output_webrtc, try_except, of_result, perform, logger_error,
    mbind, mret, M_bind, M_ret.
  destruct (imencode_jpg frame 80); cbn; keep_consistent sid.
Qed.

Lemma output_hls_consistent sid frame o s :
  is_Some (active_streams s !! sid) ->
  consistent s -> consistent (output_hls config env sid frame o s).2.
Proof.
  intros Hsid [Howned Hheld]. unfold consistent.
  unfold output_hls, try_except, of_result, Popen, external, hasattr,
    setattr, getattr, shape_at, logger_error, mbind, mret, M_bind, M_ret.
  run_cases s frame; keep_consistent sid.
Qed.

Lemma output_dash_consistent sid frame o s :
  is_Some (active_streams s !! sid) ->
  consistent s -> consistent (output_dash config env sid frame o s).2.
Proof.
  intros Hsid [Howned Hheld]. unfold consistent.
  unfold output_dash, try_except, of_result, Popen, external, hasattr,
    setattr, getattr, shape_at, logger_error, mbind, mret, M_bind, M_ret.
  run_cases s frame; keep_consistent sid.
Qed.

End ConsistentSinks.

Section ConsistentFrames.
Context `{OpenCV}.
Variable config : Config.
Variable models : Models.
Variable env : Environment.

Lemma deliver_consistent sid frame o s :
  is_Some (active_streams s !! sid) ->
  consistent s -> consistent (deliver config env sid frame o s).2.
Proof.
  intros Hsid Hs. unfold deliver.
  destruct (String.eqb _ "webrtc"); [by apply output_webrtc_consistent|].
  destruct (String.eqb _ "hls"); [by apply output_hls_consistent|].
  destruct (String.eqb _ "dash"); [by apply output_dash_consistent|].
  done.
Qed.

Lemma for_each_deliver_consistent sid frame (output_configs : list OutputConfig) s :
  is_Some (active_streams s !! sid) ->
  consistent s ->
  consistent (for_each output_configs (deliver config env sid frame) s).2.
Proof.
  revert s. induction output_configs as [|o rest IH]; intros s Hsid Hs;
    [done|].
  cbn [for_each]. unfold mbind, M_bind.
  pose proof (deliver_consistent sid frame o s Hsid Hs) as Hs'.
  assert (active_streams (deliver config env sid frame o s).2
          = active_streams s) as Hreg
    by (by apply preserves_deliver).
  destruct (deliver config env sid frame o s) as [[[]|e] s']; cbn in *;
    [|done].
  apply IH; [by rewrite Hreg|done].
Qed.

Lemma output_frame_consistent sid frame s :
  consistent s -> consistent (output_frame config env sid frame s).2.
Proof.
  intros Hs. unfold output_frame.
  destruct (active_streams s !! sid) as [stream|] eqn:Hsid; [|done].
  apply for_each_deliver_consistent; [by rewrite Hsid|done].
Qed.

Lemma process_frame_consistent sid frame s :
  consistent s ->
  consistent (process_frame config models env sid frame s).2.
Proof.
  intros Hs. unfold process_frame, try_except, of_result, mbind, M_bind.
  destruct (apply_effects config models frame) as [processed|e]; [|done].
  pose proof (output_frame_consistent sid processed s Hs) as Hs'.
  by destruct (output_frame config env sid processed s) as [[[]|e] s'].
Qed.

Lemma initial_state_consistent : consistent initial_state.
Proof.
  split; intros ? ? Hlookup; cbn in Hlookup;
    [by rewrite lookup_empty in Hlookup|by rewrite lookup_nil in Hlookup].
Qed.

Lemma add_stream_consistent sid input_config output_configs now s :
  consistent s ->
  consistent (add_stream sid input_config output_configs now s).2.
Proof.
  intros [Howned Hheld]. split; [|done].
  intros name p Hname. destruct (Howned name p Hname) as (sid' & Hsid' & ?).
  exists sid'. split; [|done]. cbn.
  destruct (decide (sid = sid')) as [<-|Hne];
    [by rewrite lookup_insert_eq|by rewrite lookup_insert_ne].
Qed.

End ConsistentFrames.

(** *** [remove_stream] and the other processes *)

Lemma effect_other c ps p :
  is_spawn c = false -> handle_of c <> Some p -> effect c ps !! p = ps !! p.
Proof.
  intros Hc Hp.
  destruct c; cbn in *; try done;
    (apply list_lookup_alter_ne; congruence).
Qed.

Lemma hls_process_inj sid sid' : hls_process sid = hls_process sid' -> sid = sid'.
Proof. unfold hls_process. cbn. intros [= Heq]. exact Heq. Qed.

Lemma dash_process_inj sid sid' :
  dash_process sid = dash_process sid' -> sid = sid'.
Proof. unfold dash_process. cbn. intros [= Heq]. exact Heq. Qed.

Lemma hls_dash_apart sid sid' : hls_process sid <> dash_process sid'.
Proof. discriminate. Qed.

Section RemovalFrame.
Variable env : Environment.

#[local] Arguments effect : simpl never.

(** The teardown of an attribute changes no child process but the one the
    attribute holds, and starts none. *)
Lemma teardown_frame process_attr s :
  length (processes (teardown env process_attr s).2) = length (processes s)
  /\ forall p,
       attributes s !! process_attr <> Some p ->
       processes (teardown env process_attr s).2 !! p = processes s !! p.
Proof.
  unfold teardown, try_except, external, perform, hasattr, getattr, delattr,
    mbind, mret, M_bind, M_ret. cbn.
  destruct (attributes s !! process_attr) as [process|] eqn:Hattr; cbn;
    [|done].
  rewrite Hattr.
  repeat first
    [ progress cbn
    | match goal with
      | |- context [outcome env ?t ?c] =>
          let E := fresh "E" in destruct (outcome env t c) eqn:E
      end ];
    (split;
     [ by rewrite !effect_length
     | intros p Hp;
       rewrite !effect_other by (done || (cbn; congruence)); done ]).
Qed.

Lemma remove_stream_frame sid s :
  length (processes (remove_stream env sid s).2) = length (processes s)
  /\ forall p,
       attributes s !! hls_process sid <> Some p ->
       attributes s !! dash_process sid <> Some p ->
       processes (remove_stream env sid s).2 !! p = processes s !! p.
Proof.
  unfold remove_stream, is_active, del_active, mbind, mret, M_bind, M_ret.
  destruct (bool_decide _); [|done]. cbn -[teardown].
  unfold mbind, mret, M_bind, M_ret.
  set (s1 := set_active_streams (delete sid) s).
  destruct (teardown_spec env (hls_process sid) s1)
    as (evs1 & Hrun1 & _ & Hattr1 & _).
  destruct (teardown_frame (hls_process sid) s1) as [Hlen1 Hframe1].
  rewrite Hrun1. cbn -[teardown].
  set (s2 := (teardown env (hls_process sid) s1).2) in *.
  destruct (teardown_spec env (dash_process sid) s2) as (evs2 & Hrun2 & _).
  destruct (teardown_frame (dash_process sid) s2) as [Hlen2 Hframe2].
  rewrite Hrun2. cbn -[teardown].
  split; [by rewrite Hlen2, Hlen1|].
  intros p Hhls Hdash. rewrite Hframe2, Hframe1; [done..|].
  rewrite Hattr1, lookup_delete_ne; [done|]. apply hls_dash_apart.
Qed.

Lemma remove_stream_consistent sid s :
  consistent s -> consistent (remove_stream env sid s).2.
Proof.
  intros [Howned Hheld].
  destruct (active_streams s !! sid) as [stream|] eqn:Hsid;
    [|by rewrite remove_stream_absent].
  destruct (remove_stream_present env sid s)
    as (evs1 & evs2 & _ & Hreg & Hattr & _ & _ & _ & Hstop);
    [by rewrite Hsid|].
  destruct (remove_stream_frame sid s) as [Hlen Hframe].
  split.
  - rewrite Hreg, Hattr. intros name p Hname.
    apply lookup_delete_Some in Hname as [Hdash Hname].
    apply lookup_delete_Some in Hname as [Hhls Hname].
    destruct (Howned name p Hname) as (sid' & Hsid' & Hname').
    exists sid'. split; [|done].
    rewrite lookup_delete_ne; [done|].
    intros <-. destruct Hname'; congruence.
  - rewrite Hattr. intros p q' Hp Hrun.
    assert (is_Some (processes s !! p)) as Hvalid.
    { apply lookup_lt_is_Some. rewrite <- Hlen. by eapply lookup_lt_Some. }
    destruct (decide (attributes s !! hls_process sid = Some p)) as [Hh|Hh].
    { specialize (Hstop p (or_introl Hh) Hvalid). unfold stopped in Hstop.
      rewrite Hp in Hstop. cbn in Hstop. congruence. }
    destruct (decide (attributes s !! dash_process sid = Some p)) as [Hd|Hd].
    { specialize (Hstop p (or_intror Hd) Hvalid). unfold stopped in Hstop.
      rewrite Hp in Hstop. cbn in Hstop. congruence. }
    rewrite Hframe in Hp by done.
    destruct (Hheld p q' Hp Hrun) as (name & Hname).
    exists name. rewrite !lookup_delete_ne; [done|congruence..].
Qed.

Lemma shutdown_consistent stream_ids s :
  consistent s -> consistent (shutdown env stream_ids s).2.
Proof.
  unfold shutdown. revert s.
  induction stream_ids as [|sid rest IH]; intros s Hs; [done|].
  cbn [for_each]. unfold mbind, M_bind.
  rewrite remove_stream_returns. apply IH. by apply remove_stream_consistent.
Qed.

End RemovalFrame.

(** *** Every reachable state is consistent *)

Lemma for_each_invariant {A} (J : State -> Prop) (xs : list A) body s :
  (forall x s, J s -> J (body x s).2) -> J s -> J (for_each xs body s).2.
Proof.
  intros Hbody. revert s. induction xs as [|x xs IH]; intros s Hs; [done|].
  cbn [for_each]. unfold mbind, M_bind.
  pose proof (Hbody x s Hs) as Hs'.
  destruct (body x s) as [[[]|e] s']; cbn in *; [by apply IH|done].
Qed.

Section ConsistentLoop.
Context `{OpenCV}.
Variable config : Config.
Variable models : Models.
Variable env : Environment.

Lemma perform_consistent c s :
  is_spawn c = false -> consistent s -> consistent (perform c s).2.
Proof. intros Hc [Howned Hheld]. split; [done|]. by apply held_effect. Qed.

Lemma run_command_consistent c s :
  consistent s -> consistent (run_command env c s).2.
Proof.
  destruct c; [apply add_stream_consistent|apply remove_stream_consistent].
Qed.

Lemma after_frame_consistent sid frame others s :
  consistent s -> consistent (after_frame config models env sid frame others s).
Proof.
  intros Hs. unfold after_frame.
  apply for_each_invariant; [intros; by apply run_command_consistent|].
  apply process_frame_consistent. by apply perform_consistent.
Qed.

Lemma read_loop_consistent sid pending s :
  consistent s -> consistent (read_loop config models env sid pending s).2.
Proof.
  revert s. induction pending as [|[frame others] rest IH]; intros s Hs.
  - by destruct Hs.
  - rewrite read_loop_step.
    pose proof (after_frame_consistent sid frame others s Hs).
    destruct (bool_decide _); [by apply IH|done].
Qed.

Lemma process_with_opencv_consistent input_url sid s :
  consistent s ->
  consistent (process_with_opencv config models env input_url sid s).2.
Proof.
  intros Hs. unfold process_with_opencv.
  destruct (isOpened _); cbn [negb]; [|done].
  unfold try_finally.
  pose proof (read_loop_consistent sid
                (frames (VideoCapture env input_url)) s Hs) as Hs'.
  destruct (read_loop _ _ _ _ _ s) as [r s']. cbn in *.
  by apply perform_consistent.
Qed.

(** X2: as long as the calls of the methods do not overlap, in every state
    they lead to from the initial one each process attribute
    [hls_process_<id>] or [dash_process_<id>] belongs to a registered
    stream, and each child process that is still running is held by such
    an attribute: no encoder is left running without a registered
    stream. (A removal that lands inside a frame breaks this: X22.) *)
Theorem reachable_consistent s :
  reachable config models env s -> consistent s.
Proof.
  induction 1 as [|s sid i o now _ IH|s sid _ IH|s sid frame _ IH
                  |s url sid _ IH|s ids _ IH].
  - apply initial_state_consistent.
  - by apply add_stream_consistent.
  - by apply remove_stream_consistent.
  - by apply process_frame_consistent.
  - by apply process_with_opencv_consistent.
  - by apply shutdown_consistent.
Qed.

End ConsistentLoop.

(** ** [shutdown] *)

Section ShutdownFacts.
Variable env : Environment.

Lemma remove_stream_registry sid s :
  active_streams (remove_stream env sid s).2 = delete sid (active_streams s).
Proof.
  destruct (active_streams s !! sid) as [stream|] eqn:Hsid.
  - destruct (remove_stream_present env sid s) as (? & ? & _ & Hreg & _);
      [by rewrite Hsid|]. done.
  - by rewrite remove_stream_absent, delete_id.
Qed.

Lemma shutdown_returns stream_ids s :
  (shutdown env stream_ids s).1 = Ok tt.
Proof.
  unfold shutdown. revert s.
  induction stream_ids as [|sid rest IH]; intros s; [done|].
  cbn [for_each]. unfold mbind, M_bind.
  rewrite remove_stream_returns. apply IH.
Qed.

Lemma shutdown_registry stream_ids s sid :
  active_streams (shutdown env stream_ids s).2 !! sid
  = if decide (sid ∈ stream_ids) then None else active_streams s !! sid.
Proof.
  unfold shutdown. revert s.
  induction stream_ids as [|sid' rest IH]; intros s.
  - cbn. by rewrite decide_False by apply not_elem_of_nil.
  - cbn [for_each]. unfold mbind, M_bind.
    rewrite remove_stream_returns, IH, remove_stream_registry.
    destruct (decide (sid = sid')) as [->|Hne].
    + rewrite lookup_delete_eq, (decide_True (P := sid' ∈ sid' :: rest))
        by left.
      by destruct (decide _).
    + rewrite lookup_delete_ne by done.
      destruct (decide (sid ∈ rest)) as [Hin|Hnin].
      * by rewrite decide_True by by right.
      * rewrite decide_False; [done|]. by intros [?|?]%elem_of_cons.
Qed.

(** X3: from a consistent state, [shutdown] over a snapshot that lists every
    registered id returns normally and leaves the registry empty, no
    process attribute set, and no child process running. *)
Theorem shutdown_stops_everything stream_ids s :
  consistent s ->
  (forall sid, is_Some (active_streams s !! sid) -> sid ∈ stream_ids) ->
  (shutdown env stream_ids s).1 = Ok tt
  /\ active_streams (shutdown env stream_ids s).2 = ∅
  /\ attributes (shutdown env stream_ids s).2 = ∅
  /\ forall p q,
       processes (shutdown env stream_ids s).2 !! p = Some q ->
       running q = false.
Proof.
  intros Hs Hall.
  destruct (shutdown_consistent env stream_ids s Hs) as [Howned Hheld].
  assert (active_streams (shutdown env stream_ids s).2 = ∅) as Hreg.
  { apply map_eq. intros sid. rewrite shutdown_registry, lookup_empty.
    destruct (decide _) as [|Hnin]; [done|].
    destruct (active_streams s !! sid) eqn:Hsid; [|done].
    destruct Hnin. apply Hall. by rewrite Hsid. }
  assert (attributes (shutdown env stream_ids s).2 = ∅) as Hattrs.
  { apply map_empty. intros name.
    destruct (attributes _ !! name) as [p|] eqn:Hname; [|done].
    destruct (Howned name p Hname) as (sid & [? Hsid] & _).
    by rewrite Hreg, lookup_empty in Hsid. }
  split; [apply shutdown_returns|]. split; [done|]. split; [done|].
  intros p q Hp. destruct (running q) eqn:Hrun; [|done].
  destruct (Hheld p q Hp Hrun) as (name & Hname).
  by rewrite Hattrs, lookup_empty in Hname.
Qed.

(** X4: [shutdown] over ids none of which is registered changes nothing; so
    a second [shutdown], whatever its snapshot, after one that emptied the
    registry is a no-op. *)
Theorem shutdown_without_streams stream_ids s :
  (forall sid, sid ∈ stream_ids -> active_streams s !! sid = None) ->
  shutdown env stream_ids s = (Ok tt, s).
Proof.
  unfold shutdown. induction stream_ids as [|sid rest IH]; intros Hnone;
    [done|].
  cbn [for_each]. unfold mbind, M_bind.
  rewrite remove_stream_absent by (apply Hnone; left).
  apply IH. intros sid' Hin. apply Hnone. by right.
Qed.

(** X5: [remove_stream] leaves every other stream as it was: its entry, its
    two process attributes, and every child process that is not behind an
    attribute of the removed id. *)
Theorem remove_stream_spares_others sid other s :
  other <> sid ->
  active_streams (remove_stream env sid s).2 !! other
  = active_streams s !! other
  /\ attributes (remove_stream env sid s).2 !! hls_process other
     = attributes s !! hls_process other
  /\ attributes (remove_stream env sid s).2 !! dash_process other
     = attributes s !! dash_process other
  /\ forall p,
       attributes s !! hls_process sid <> Some p ->
       attributes s !! dash_process sid <> Some p ->
       processes (remove_stream env sid s).2 !! p = processes s !! p.
Proof.
  intros Hne.
  split; [by rewrite remove_stream_registry, lookup_delete_ne|].
  destruct (remove_stream_frame env sid s) as [_ Hframe].
  destruct (active_streams s !! sid) as [stream|] eqn:Hsid;
    [|by rewrite remove_stream_absent].
  destruct (remove_stream_present env sid s) as (? & ? & _ & _ & -> & _);
    [by rewrite Hsid|].
  split; [|split; [|done]].
  - rewrite !lookup_delete_ne; [done|..].
    + intros Heq. by apply hls_process_inj in Heq.
    + intros Heq. symmetry in Heq. by apply hls_dash_apart in Heq.
  - rewrite !lookup_delete_ne; [done|..].
    + by apply hls_dash_apart.
    + intros Heq. by apply dash_process_inj in Heq.
Qed.

End ShutdownFacts.

(** ** The encoder of a segmented sink over several frames *)

Lemma effect_args c ps p :
  is_spawn c = false -> args <$> effect c ps !! p = args <$> ps !! p.
Proof.
  intros Hc.
  destruct c; cbn in *; try done;
    (rewrite list_lookup_alter; case_decide; subst; [|done];
     by destruct (ps !! _)).
Qed.

Lemma for_each_app {A} (xs ys : list A) body s :
  for_each (xs ++ ys) body s
  = match for_each xs body s with
    | (Ok _, s') => for_each ys body s'
    | (Err e, s') => (Err e, s')
    end.
Proof.
  revert s. induction xs as [|x xs IH]; intros s; [done|].
  cbn [app for_each]. unfold mbind, M_bind.
  destruct (body x s) as [[[]|e] s']; [apply IH|done].
Qed.

Section Encoder.
Context `{OpenCV}.
Variable config : Config.
Variable env : Environment.

#[local] Arguments effect : simpl never.

Ltac run_encoder Hattr frame :=
  repeat first
    [ progress cbn -[hls_process dash_process]
    | rewrite Hattr
    | rewrite lookup_insert_eq
    | match goal with
      | |- context [outcome env ?t ?c] =>
          let E := fresh "E" in destruct (outcome env t c) eqn:E
      | |- context [shape frame !! ?i] =>
          let E := fresh "E" in destruct (shape frame !! i) eqn:E
      end ].

Ltac same_encoder :=
  split; [done|]; split; [by rewrite ?effect_length|]; split;
  [ by rewrite ?effect_args
  | intros p' Hp'; rewrite ?effect_other by (done || (cbn; congruence));
    done ].

(** X6: once the attribute of a stream holds an encoder, [output_hls] and
    [output_dash] never spawn another one for that stream, whatever the
    frame and whatever fails: the attributes and the number of child
    processes are as before, the encoder keeps the command it was started
    with (the frame size of the first frame included), and no other child
    process is touched. *)
Theorem encoder_spawned_once sid frame o s p :
  (attributes s !! hls_process sid = Some p ->
   attributes (output_hls config env sid frame o s).2 = attributes s
   /\ length (processes (output_hls config env sid frame o s).2)
      = length (processes s)
   /\ args <$> processes (output_hls config env sid frame o s).2 !! p
      = args <$> processes s !! p
   /\ forall p', p' <> p ->
        processes (output_hls config env sid frame o s).2 !! p'
        = processes s !! p')
  /\ (attributes s !! dash_process sid = Some p ->
      attributes (output_dash config env sid frame o s).2 = attributes s
      /\ length (processes (output_dash config env sid frame o s).2)
         = length (processes s)
      /\ args <$> processes (output_dash config env sid frame o s).2 !! p
         = args <$> processes s !! p
      /\ forall p', p' <> p ->
           processes (output_dash config env sid frame o s).2 !! p'
           = processes s !! p').
Proof.
  split; intros Hattr.
  - unfold output_hls, try_except, of_result, Popen, external, hasattr,
      setattr, getattr, shape_at, logger_error, mbind, mret, M_bind, M_ret.
    run_encoder Hattr frame; same_encoder.
  - unfold output_dash, try_except, of_result, Popen, external, hasattr,
      setattr, getattr, shape_at, logger_error, mbind, mret, M_bind, M_ret.
    run_encoder Hattr frame; same_encoder.
Qed.

End Encoder.



Section EncoderFrames.
Context `{OpenCV}.
Variable config : Config.
Variable env : Environment.

(** Every call succeeds. *)
Hypothesis all_ok : forall t c, outcome env t c = true.

Ltac run_ok Hattr Hshape :=
  repeat first
    [ progress cbn -[hls_process dash_process]
    | rewrite Hattr
    | rewrite Hshape
    | rewrite all_ok
    | rewrite lookup_insert_eq ].

Lemma output_hls_first sid frame o s height width dims :
  shape frame = height :: width :: dims ->
  attributes s !! hls_process sid = None ->
  exists cmd,
    pretty width +:+ "x" +:+ pretty height ∈ cmd
    /\ output_hls config env sid frame o s
       = (Ok tt, (output_hls config env sid frame o s).2)
    /\ attributes (output_hls config env sid frame o s).2
       = <[hls_process sid:=length (processes s)]> (attributes s)
    /\ processes (output_hls config env sid frame o s).2
       = processes s
         ++ [{| args := cmd; stdin_closed := false;
                stdin_received := [tobytes frame]; running := true |}].
Proof.
  intros Hshape Hattr.
  unfold output_hls, try_except, of_result, Popen, external, hasattr,
    setattr, getattr, shape_at, logger_error, mbind, mret, M_bind, M_ret.
  run_ok Hattr Hshape.
  eexists. split; [|split; [done|split; [done|]]].
  2:{ rewrite alter_app_r_alt by done. rewrite Nat.sub_diag. done. }
  set_solver.
Qed.

Lemma output_dash_first sid frame o s height width dims :
  shape frame = height :: width :: dims ->
  attributes s !! dash_process sid = None ->
  exists cmd,
    pretty width +:+ "x" +:+ pretty height ∈ cmd
    /\ output_dash config env sid frame o s
       = (Ok tt, (output_dash config env sid frame o s).2)
    /\ attributes (output_dash config env sid frame o s).2
       = <[dash_process sid:=length (processes s)]> (attributes s)
    /\ processes (output_dash config env sid frame o s).2
       = processes s
         ++ [{| args := cmd; stdin_closed := false;
                stdin_received := [tobytes frame]; running := true |}].
Proof.
  intros Hshape Hattr.
  unfold output_dash, try_except, of_result, Popen, external, hasattr,
    setattr, getattr, shape_at, logger_error, mbind, mret, M_bind, M_ret.
  run_ok Hattr Hshape.
  eexists. split; [|split; [done|split; [done|]]].
  2:{ rewrite alter_app_r_alt by done. rewrite Nat.sub_diag. done. }
  set_solver.
Qed.










End EncoderFrames.

(** ** A directory that cannot be made *)

Section MakedirsFailure.
Context `{OpenCV}.
Variable config : Config.
Variable models : Models.
Variable env : Environment.

Lemma segmented_makedirs_fails sid frame o s :
  output_type o = "hls" \/ output_type o = "dash" ->
  outcome env (trace s)
    (os_makedirs ("output/" +:+ sid +:+ "/" +:+ output_type o)) = false ->
  deliver config env sid frame o s
  = (Err OSError,
     log_event
       (os_makedirs ("output/" +:+ sid +:+ "/" +:+ output_type o), false) s).
Proof.
  intros [Htype|Htype] Hfails; rewrite Htype in *; unfold deliver;
    rewrite Htype; cbn [String.eqb Ascii.eqb Bool.eqb];
    [unfold output_hls|unfold output_dash];
    unfold external, mbind, M_bind; cbn in *;
    match goal with
    | |- context [outcome env ?t ?c] =>
        replace (outcome env t c) with false by (symmetry; exact Hfails)
    end; done.
Qed.

(** X8: [os.makedirs] is called outside the [try] of [output_hls] and
    [output_dash]. When it raises for a sink of a stream, [output_frame]
    raises [OSError] there: the sinks listed after that one get nothing of
    the frame, and [process_frame] catches the exception and returns
    normally. *)
Theorem makedirs_failure_skips_later_sinks sid frame processed stream
    before o after s :
  active_streams s !! sid = Some stream ->
  outputs stream = before ++ o :: after ->
  output_type o = "hls" \/ output_type o = "dash" ->
  (for_each before (deliver config env sid processed) s).1 = Ok tt ->
  outcome env
    (trace (for_each before (deliver config env sid processed) s).2)
    (os_makedirs ("output/" +:+ sid +:+ "/" +:+ output_type o)) = false ->
  output_frame config env sid processed s
  = (Err OSError,
     log_event
       (os_makedirs ("output/" +:+ sid +:+ "/" +:+ output_type o), false)
       (for_each before (deliver config env sid processed) s).2)
  /\ (apply_effects config models frame = Ok processed ->
      process_frame config models env sid frame s
      = (Ok tt,
         log_event
           (os_makedirs ("output/" +:+ sid +:+ "/" +:+ output_type o), false)
           (for_each before (deliver config env sid processed) s).2)).
Proof.
  intros Hsid Houts Htype Hbefore Hfails.
  assert (output_frame config env sid processed s
          = (Err OSError,
             log_event
               (os_makedirs ("output/" +:+ sid +:+ "/" +:+ output_type o),
                false)
               (for_each before (deliver config env sid processed) s).2))
    as Hraises.
  { unfold output_frame. rewrite Hsid, Houts, for_each_app.
    destruct (for_each before _ s) as [[[]|e] s']; cbn in *; [|done].
    unfold mbind, M_bind.
    by rewrite (segmented_makedirs_fails sid processed o s'). }
  split; [done|]. intros Heffects.
  unfold process_frame, try_except, of_result, mbind, M_bind.
  by rewrite Heffects, Hraises.
Qed.

(** X9: a frame for an id that is not registered goes through the effect
    chain and is then dropped: [process_frame] returns normally and
    changes nothing, whether the chain raised or not. *)
Theorem process_frame_unregistered sid frame s :
  active_streams s !! sid = None ->
  process_frame config models env sid frame s = (Ok tt, s).
Proof.
  intros Hsid.
  unfold process_frame, try_except, of_result, output_frame, mbind, M_bind.
  rewrite Hsid. by destruct (apply_effects config models frame).
Qed.

End MakedirsFailure.

(** ** The fan-out up to a directory that cannot be made *)

Section FanOutSetup.
Context `{OpenCV}.
Variable config : Config.
Variable env : Environment.
Variable frame : ndarray.

(** The frame is an image: it has a height and a width. *)
Hypothesis frame_2d : (2 <= length (shape frame))%nat.

Lemma segmented_dec o : {segmented o} + {~ segmented o}.
Proof.
  unfold segmented.
  destruct (decide (output_type o = "hls")); [by left; left|].
  destruct (decide (output_type o = "dash")); [by left; right|].
  right. by intros [?|?].
Qed.

(** A sink whose directory can be made does what it does in the world
    where every directory can be made. *)
Lemma deliver_with_makedirs sid o s :
  (segmented o ->
   outcome env (trace s)
     (os_makedirs ("output/" +:+ sid +:+ "/" +:+ output_type o)) = true) ->
  deliver config env sid frame o s
  = deliver config (with_makedirs env) sid frame o s.
Proof.
  intros Hmade. unfold deliver.
  destruct (String.eqb (output_type o) "webrtc"); [done|].
  destruct (String.eqb_spec (output_type o) "hls") as [Htype|_].
  { specialize (Hmade (or_introl Htype)). rewrite Htype in Hmade.
    unfold output_hls, external, mbind, M_bind.
    cbn [outcome with_makedirs].
    replace (outcome env (trace s) (os_makedirs ("output/" +:+ sid +:+ "/hls")))
      with true by (symmetry; exact Hmade).
    reflexivity. }
  destruct (String.eqb_spec (output_type o) "dash") as [Htype|_]; [|done].
  specialize (Hmade (or_intror Htype)). rewrite Htype in Hmade.
  unfold output_dash, external, mbind, M_bind.
  cbn [outcome with_makedirs].
  replace (outcome env (trace s) (os_makedirs ("output/" +:+ sid +:+ "/dash")))
    with true by (symmetry; exact Hmade).
  reflexivity.
Qed.

(** One turn of the loop of [output_frame]: the attempt of the sink, or,
    for a segmented sink whose directory cannot be made, [OSError]. *)
Lemma deliver_outcome sid o s :
  (exists evs,
     deliver config env sid frame o s
     = (Ok tt, (deliver config env sid frame o s).2)
     /\ trace (deliver config env sid frame o s).2 = trace s ++ evs
     /\ sink_attempt sid frame o evs)
  \/ (segmented o
      /\ deliver config env sid frame o s
         = (Err OSError,
            log_event
              (os_makedirs ("output/" +:+ sid +:+ "/" +:+ output_type o),
               false) s)).
Proof.
  destruct (segmented_dec o) as [Hseg|Hweb].
  - destruct (outcome env (trace s)
                (os_makedirs ("output/" +:+ sid +:+ "/" +:+ output_type o)))
      eqn:Hmade.
    + left. rewrite deliver_with_makedirs by done.
      by apply deliver_attempt.
    + right. split; [done|]. by apply segmented_makedirs_fails.
  - left. rewrite deliver_with_makedirs by done.
    by apply deliver_attempt.
Qed.

(** The loop of [output_frame] goes through the sinks in order, up to the
    first segmented sink whose directory cannot be made. *)
Lemma for_each_deliver_outcome sid (output_configs : list OutputConfig) s :
  exists attempted evss,
    Forall2 (sink_attempt sid frame) attempted evss
    /\ ((for_each output_configs (deliver config env sid frame) s).1 = Ok tt
        /\ attempted = output_configs
        /\ trace (for_each output_configs (deliver config env sid frame) s).2
           = trace s ++ concat evss
        \/ exists o after,
             output_configs = attempted ++ o :: after
             /\ segmented o
             /\ (for_each output_configs (deliver config env sid frame) s).1
                = Err OSError
             /\ trace
                  (for_each output_configs (deliver config env sid frame) s).2
                = trace s ++ concat evss
                  ++ [(os_makedirs
                         ("output/" +:+ sid +:+ "/" +:+ output_type o),
                       false)]).
Proof.
  revert s. induction output_configs as [|o rest IH]; intros s.
  - exists [], []. split; [constructor|]. left. cbn. by rewrite app_nil_r.
  - cbn [for_each]. unfold mbind, M_bind.
    destruct (deliver_outcome sid o s)
      as [(evs & Hrun & Htrace & Hevs)|[Hseg Hrun]]; rewrite Hrun.
    + destruct (IH (deliver config env sid frame o s).2)
        as (attempted & evss & Hevss & Hrest).
      exists (o :: attempted), (evs :: evss). split; [by constructor|].
      destruct Hrest as [(Hok & -> & Hrest)|(o' & after & -> & ? & Herr & Hrest)].
      * left. split; [done|]. split; [done|].
        rewrite Hrest, Htrace. cbn. by rewrite (assoc_L (++)).
      * right. exists o', after. split; [done|]. split; [done|].
        split; [done|].
        rewrite Hrest, Htrace. cbn. by rewrite !(assoc_L (++)).
    + exists [], []. split; [constructor|]. right. exists o, rest.
      split; [done|]. split; [done|]. split; [done|]. done.
Qed.

(** C3: the [try] of a segmented sink covers the spawn and the write, not
    the [os.makedirs] before it. When the directory of a sink cannot be
    made, the sinks listed before it have had their attempts, and
    [output_frame] raises [OSError] there: the failure is not caught at
    the sink, which gets nothing of the frame, and neither do the sinks
    listed after it. The registry is as before. *)
Theorem makedirs_failure_cancels_fan_out sid s stream before o after :
  active_streams s !! sid = Some stream ->
  outputs stream = before ++ o :: after ->
  segmented o ->
  (for_each before (deliver config env sid frame) s).1 = Ok tt ->
  outcome env
    (trace (for_each before (deliver config env sid frame) s).2)
    (os_makedirs ("output/" +:+ sid +:+ "/" +:+ output_type o)) = false ->
  exists evss,
    Forall2 (sink_attempt sid frame) before evss
    /\ (output_frame config env sid frame s).1 = Err OSError
    /\ trace (output_frame config env sid frame s).2
       = trace s ++ concat evss
         ++ [(os_makedirs ("output/" +:+ sid +:+ "/" +:+ output_type o),
              false)]
    /\ active_streams (output_frame config env sid frame s).2
       = active_streams s.
Proof.
  intros Hsid Houts Hseg Hbefore Hfails.
  destruct (for_each_deliver_outcome sid before s)
    as (attempted & evss & Hevss & [(_ & -> & Htrace)|(? & ? & _ & _ & Herr & _)]);
    [|congruence].
  exists evss. split; [done|].
  split; [|split; [|apply keeps_output_frame]].
  - unfold output_frame. rewrite Hsid, Houts, for_each_app.
    destruct (for_each before _ s) as [[[]|e] s']; cbn in *; [|done].
    unfold mbind, M_bind.
    by rewrite (segmented_makedirs_fails config env sid frame o s').
  - unfold output_frame. rewrite Hsid, Houts, for_each_app.
    destruct (for_each before _ s) as [[[]|e] s']; cbn in *; [|done].
    unfold mbind, M_bind.
    rewrite (segmented_makedirs_fails config env sid frame o s') by done.
    cbn. by rewrite Htrace, (assoc_L (++)).
Qed.

End FanOutSetup.

(** ** The registry over time *)

Section RegistryCycle.
Context `{OpenCV}.
Variable config : Config.
Variable models : Models.
Variable env : Environment.

(** X10: after [add_stream], [get_stream_stats] for the id returns what was
    registered: the duration since the time of registration, the input
    type, the output types in order, and a frame count and a rate of 0. *)
Theorem stats_after_add_stream sid input_config output_configs t0 t1 s :
  exists stats,
    (get_stream_stats sid t1
       (add_stream sid input_config output_configs t0 s).2).1
    = Ok (Some stats)
    /\ stats_stream_id stats = sid
    /\ duration stats = (t1 - t0)%Q
    /\ stats_frame_count stats = 0
    /\ (fps stats == 0)%Q
    /\ stats_input_type stats = input_type input_config
    /\ output_types stats = map output_type output_configs.
Proof.
  unfold get_stream_stats. cbn. rewrite lookup_insert_eq. cbn.
  eexists. split; [done|]. cbn. repeat (split; [done|]).
  split; [|done].
  destruct (Qle_bool _ 0); cbn; [done|].
  unfold Qeq, Qdiv, Qmult. cbn. lia.
Qed.

Lemma add_stream_uncounted sid input_config output_configs now s :
  uncounted s ->
  uncounted (add_stream sid input_config output_configs now s).2.
Proof.
  intros Hs sid' stream. cbn.
  destruct (decide (sid = sid')) as [<-|Hne].
  - rewrite lookup_insert_eq. by intros [= <-].
  - rewrite lookup_insert_ne by done. apply Hs.
Qed.

Lemma remove_stream_uncounted sid s :
  uncounted s -> uncounted (remove_stream env sid s).2.
Proof.
  intros Hs sid' stream. rewrite remove_stream_registry.
  intros [_ Hsid']%lookup_delete_Some. by eapply Hs.
Qed.

Lemma process_frame_uncounted sid frame s :
  uncounted s -> uncounted (process_frame config models env sid frame s).2.
Proof. intros Hs sid' stream. rewrite keeps_process_frame. apply Hs. Qed.

Lemma reachable_uncounted s : reachable config models env s -> uncounted s.
Proof.
  induction 1 as [|s sid i o now _ IH|s sid _ IH|s sid frame _ IH
                  |s url sid _ IH|s ids _ IH].
  - intros sid stream Hsid. cbn in Hsid. by rewrite lookup_empty in Hsid.
  - by apply add_stream_uncounted.
  - by apply remove_stream_uncounted.
  - by apply process_frame_uncounted.
  - unfold process_with_opencv. destruct (isOpened _); cbn [negb]; [|done].
    unfold try_finally.
    assert (forall pending s,
               uncounted s ->
               uncounted (read_loop config models env sid pending s).2)
      as Hloop.
    { induction pending as [|[frame others] rest IHp]; intros s0 Hs0;
        [done|].
      rewrite read_loop_step.
      assert (uncounted (after_frame config models env sid frame others s0))
        as Hafter.
      { unfold after_frame. apply for_each_invariant.
        - intros [] ? ?; [by apply add_stream_uncounted
                        |by apply remove_stream_uncounted].
        - by apply process_frame_uncounted. }
      destruct (bool_decide _); [by apply IHp|done]. }
    specialize (Hloop (frames (VideoCapture env url)) s IH).
    by destruct (read_loop _ _ _ _ _ s) as [r s'].
  - unfold shutdown. apply for_each_invariant; [|done].
    intros; by apply remove_stream_uncounted.
Qed.

(** X11: whatever state the methods have led to, [get_stream_stats] never
    reports a frame: the frame count it returns is 0 and the rate is 0. *)
Theorem stats_never_count s sid current_time stats :
  reachable config models env s ->
  (get_stream_stats sid current_time s).1 = Ok (Some stats) ->
  stats_frame_count stats = 0 /\ (fps stats == 0)%Q.
Proof.
  intros Hs%reachable_uncounted. unfold get_stream_stats.
  destruct (active_streams s !! sid) as [stream|] eqn:Hsid; [|done].
  intros [= <-]. cbn. rewrite (Hs sid stream Hsid). split; [done|].
  destruct (Qle_bool _ 0); cbn; [done|].
  unfold Qeq, Qdiv, Qmult. cbn. lia.
Qed.

(** X12: in a consistent state, registering an id that was not registered
    and removing it again gives the state back: [remove_stream] finds no
    process to take down and makes no call. *)
Theorem add_then_remove sid input_config output_configs now s :
  consistent s ->
  active_streams s !! sid = None ->
  remove_stream env sid (add_stream sid input_config output_configs now s).2
  = (Ok tt, s).
Proof.
  intros [Howned _] Hsid.
  assert (forall name,
             name = hls_process sid \/ name = dash_process sid ->
             attributes s !! name = None) as Hfree.
  { intros name Hname. destruct (attributes s !! name) as [p|] eqn:Hp;
      [|done].
    destruct (Howned name p Hp) as (sid' & [? Hsid'] & Hname').
    assert (sid' = sid) as ->; [|congruence].
    destruct Hname as [->| ->], Hname' as [Heq|Heq];
      first [ by apply hls_process_inj in Heq
            | by apply dash_process_inj in Heq
            | by apply hls_dash_apart in Heq
            | symmetry in Heq; by apply hls_dash_apart in Heq ]. }
  assert (forall name s',
             attributes s' !! name = None ->
             teardown env name s' = (Ok tt, s')) as Hunset.
  { intros name s' Hname.
    unfold teardown, hasattr, mbind, mret, M_bind, M_ret. by rewrite Hname. }
  unfold remove_stream, is_active, del_active, mbind, mret, M_bind, M_ret.
  rewrite bool_decide_eq_true_2 by (cbn; by rewrite lookup_insert_eq).
  cbn -[teardown hls_process dash_process].
  unfold mbind, mret, M_bind, M_ret.
  rewrite Hunset by (apply Hfree; by left).
  rewrite Hunset by (apply Hfree; by right).
  destruct s. unfold set_active_streams. cbn in *.
  by rewrite delete_insert_id.
Qed.

End RegistryCycle.

(** ** The capture handle *)

Section CaptureHandle.
Context `{OpenCV}.
Variable config : Config.
Variable models : Models.
Variable env : Environment.

Lemma read_loop_returns sid pending s :
  (read_loop config models env sid pending s).1 = Ok tt.
Proof.
  revert s. induction pending as [|[frame others] rest IH]; intros s; [done|].
  rewrite read_loop_step. destruct (bool_decide _); [apply IH|done].
Qed.

Lemma teardown_reads_nothing process_attr :
  preserves frames_read (teardown env process_attr).
Proof.
  assert (forall c b s,
             is_cap_read c = false ->
             frames_read (log_event (c, b) s) = frames_read s) as Hlog.
  { intros c b s Hc. rewrite frames_read_log, Hc. cbn. lia. }
  unfold teardown.
  apply preserves_bind; [done|]. intros []; [|done].
  apply preserves_bind; [apply preserves_getattr|]. intros process.
  apply preserves_bind; [|done].
  apply preserves_try_except.
  - repeat (apply preserves_bind; [|intros _]);
      by apply preserves_external.
  - intros _. by apply preserves_perform.
Qed.

Lemma remove_stream_reads_nothing sid :
  preserves frames_read (remove_stream env sid).
Proof.
  unfold remove_stream.
  apply preserves_bind; [done|]. intros []; [|done].
  apply preserves_bind; [done|]. intros _.
  apply preserves_for_each. intros. apply teardown_reads_nothing.
Qed.

Lemma after_frame_reads sid frame others s :
  frames_read (after_frame config models env sid frame others s)
  = S (frames_read s).
Proof.
  unfold after_frame.
  rewrite preserves_for_each.
  - rewrite process_frame_reads_nothing. cbn [perform snd].
    unfold frames_read. cbn. rewrite List.filter_app, length_app. cbn. lia.
  - intros []; [done|apply remove_stream_reads_nothing].
Qed.

Lemma read_loop_bound sid pending s :
  (frames_read s <= frames_read (read_loop config models env sid pending s).2
   <= frames_read s + length pending)%nat.
Proof.
  revert s. induction pending as [|[frame others] rest IH]; intros s.
  - cbn [read_loop snd]. rewrite frames_read_log. cbn. lia.
  - rewrite read_loop_step.
    pose proof (after_frame_reads sid frame others s) as Hafter.
    destruct (bool_decide _); cbn [length snd]; [|lia].
    specialize (IH (after_frame config models env sid frame others s)).
    lia.
Qed.

(** X13: when the capture handle opens, [process_with_opencv] returns
    normally and its last call releases the handle, whatever the frames and
    whatever other threads do to the registry meanwhile; it never reads
    more frames than the source has. *)
Theorem capture_always_released input_url sid s :
  isOpened (VideoCapture env input_url) = true ->
  (process_with_opencv config models env input_url sid s).1 = Ok tt
  /\ last (trace (process_with_opencv config models env input_url sid s).2)
     = Some (cap_release, true)
  /\ (frames_read (process_with_opencv config models env input_url sid s).2
      <= frames_read s + length (frames (VideoCapture env input_url)))%nat.
Proof.
  intros Hopen. unfold process_with_opencv. rewrite Hopen. cbn [negb].
  unfold try_finally.
  pose proof (read_loop_returns sid (frames (VideoCapture env input_url)) s)
    as Hok.
  pose proof (read_loop_bound sid (frames (VideoCapture env input_url)) s)
    as Hbound.
  destruct (read_loop _ _ _ _ _ s) as [r s']. cbn in *. subst r.
  split; [done|]. split; [apply last_snoc|].
  unfold frames_read in *. cbn. rewrite List.filter_app, length_app. cbn. lia.
Qed.

End CaptureHandle.

(** ** A removal inside a frame *)

Section Orphan.
Variable env : Environment.

(** Once a stream is not registered, no [remove_stream] reaches the
    process behind its attribute. *)
Lemma remove_stream_keeps_orphan sid o p id s :
  active_streams s !! sid = None ->
  (forall name, attributes s !! name = Some p -> name = process_attr_of o sid) ->
  running <$> processes s !! p = Some true ->
  active_streams (remove_stream env id s).2 !! sid = None
  /\ (forall name,
        attributes (remove_stream env id s).2 !! name = Some p ->
        name = process_attr_of o sid)
  /\ running <$> processes (remove_stream env id s).2 !! p = Some true.
Proof.
  intros Hsid Hown Hrun.
  destruct (active_streams s !! id) as [stream|] eqn:Hid;
    [|by rewrite remove_stream_absent].
  assert (id <> sid) as Hne by congruence.
  destruct (remove_stream_present env id s)
    as (_ & _ & _ & Hreg & Hattr & _); [by rewrite Hid|].
  destruct (remove_stream_frame env id s) as [_ Hframe].
  split; [by rewrite Hreg, lookup_delete_ne|]. split.
  - intros name Hname. rewrite Hattr in Hname.
    apply lookup_delete_Some in Hname as [_ Hname].
    apply lookup_delete_Some in Hname as [_ Hname]. by apply Hown.
  - rewrite Hframe; [done|..]; intros Hname%Hown; unfold process_attr_of in *;
      destruct (String.eqb (output_type o) "hls").
    + by apply hls_process_inj in Hname.
    + by apply hls_dash_apart in Hname.
    + symmetry in Hname. by apply hls_dash_apart in Hname.
    + by apply dash_process_inj in Hname.
Qed.

End Orphan.

Section RemovalInsideFrame.
Context `{OpenCV}.
Variable config : Config.
Variable env : Environment.

(** Every call succeeds. *)
Hypothesis all_ok : forall t c, outcome env t c = true.

(** The first frame of a segmented sink starts its encoder. *)
Lemma deliver_first sid frame o s height width dims :
  shape frame = height :: width :: dims ->
  segmented o ->
  attributes s !! process_attr_of o sid = None ->
  deliver config env sid frame o s
  = (Ok tt, (deliver config env sid frame o s).2)
  /\ attributes (deliver config env sid frame o s).2
     = <[process_attr_of o sid := length (processes s)]> (attributes s)
  /\ exists cmd,
       processes (deliver config env sid frame o s).2
       = processes s
         ++ [{| args := cmd; stdin_closed := false;
                stdin_received := [tobytes frame]; running := true |}].
Proof.
  intros Hshape [Htype|Htype] Hattr; unfold process_attr_of, deliver in *;
    rewrite Htype in *; cbn [String.eqb Ascii.eqb Bool.eqb] in *.
  - destruct (output_hls_first config env all_ok sid frame o s height width
                dims Hshape Hattr) as (cmd & _ & Hrun & Hattrs & Hprocs).
    split; [done|]. split; [done|]. by exists cmd.
  - destruct (output_dash_first config env all_ok sid frame o s height width
                dims Hshape Hattr) as (cmd & _ & Hrun & Hattrs & Hprocs).
    split; [done|]. split; [done|]. by exists cmd.
Qed.

(** X22: a [remove_stream] that lands inside a frame of its stream, after
    [output_frame] has read the outputs and before it calls the sink,
    leaves an encoder that nothing stops. The stream is removed, and then
    the sink spawns an encoder and sets the attribute of the stream: the
    stream is not registered, its encoder runs, [remove_stream] for the id
    is a no-op, and the encoder is still running after [shutdown],
    whatever its snapshot. *)
Theorem removal_inside_frame_orphans_encoder sid frame o stream s
    height width dims :
  shape frame = height :: width :: dims ->
  active_streams s !! sid = Some stream ->
  outputs stream = [o] ->
  segmented o ->
  tracked s ->
  (output_frame_interrupted config env sid frame [call_remove_stream sid]
     s).1 = Ok tt
  /\ active_streams
       (output_frame_interrupted config env sid frame
          [call_remove_stream sid] s).2 !! sid = None
  /\ attributes
       (output_frame_interrupted config env sid frame
          [call_remove_stream sid] s).2 !! process_attr_of o sid
     = Some (length (processes s))
  /\ running <$>
       processes
         (output_frame_interrupted config env sid frame
            [call_remove_stream sid] s).2 !! length (processes s)
     = Some true
  /\ ~ consistent
         (output_frame_interrupted config env sid frame
            [call_remove_stream sid] s).2
  /\ remove_stream env sid
       (output_frame_interrupted config env sid frame
          [call_remove_stream sid] s).2
     = (Ok tt,
        (output_frame_interrupted config env sid frame
           [call_remove_stream sid] s).2)
  /\ forall stream_ids,
       running <$>
         processes
           (shutdown env stream_ids
              (output_frame_interrupted config env sid frame
                 [call_remove_stream sid] s).2).2 !! length (processes s)
       = Some true.
Proof.
  intros Hshape Hsid Houts Hseg Htracked.
  destruct (remove_stream_present env sid s)
    as (_ & _ & Hrun1 & Hreg1 & Hattr1 & _); [by rewrite Hsid|].
  destruct (remove_stream_frame env sid s) as [Hlen1 _].
  unfold output_frame_interrupted. rewrite Hsid, Houts.
  cbn [for_each run_command]. unfold mbind, mret, M_bind, M_ret.
  rewrite Hrun1.
  set (s1 := (remove_stream env sid s).2) in *.
  assert (attributes s1 !! process_attr_of o sid = None) as Hunset.
  { rewrite Hattr1. unfold process_attr_of.
    destruct (String.eqb (output_type o) "hls").
    - rewrite lookup_delete_ne by (symmetry; apply hls_dash_apart).
      apply lookup_delete_eq.
    - apply lookup_delete_eq. }
  destruct (deliver_first sid frame o s1 height width dims Hshape Hseg Hunset)
    as (Hrun2 & Hattr2 & cmd & Hprocs2).
  pose proof (preserves_deliver config env active_streams
                (fun _ _ => eq_refl) (fun _ _ => eq_refl)
                (fun _ _ _ _ => eq_refl) sid frame o s1) as Hreg2.
  rewrite Hrun2. cbn [fst snd].
  set (s2 := (deliver config env sid frame o s1).2) in *.
  rewrite Hlen1 in Hattr2.
  assert (active_streams s2 !! sid = None) as Hgone
    by (by rewrite Hreg2, Hreg1, lookup_delete_eq).
  assert (attributes s2 !! process_attr_of o sid = Some (length (processes s)))
    as Hheld by (by rewrite Hattr2, lookup_insert_eq).
  assert (running <$> processes s2 !! length (processes s) = Some true)
    as Hruns.
  { rewrite Hprocs2, lookup_app_r by lia.
    by rewrite Hlen1, Nat.sub_diag. }
  assert (forall name,
            attributes s2 !! name = Some (length (processes s)) ->
            name = process_attr_of o sid) as Hown.
  { intros name Hname. rewrite Hattr2 in Hname.
    destruct (decide (name = process_attr_of o sid)) as [|Hne]; [done|].
    rewrite lookup_insert_ne, Hattr1 in Hname by done.
    apply lookup_delete_Some in Hname as [_ Hname].
    apply lookup_delete_Some in Hname as [_ Hname].
    apply Htracked in Hname as [q Hq].
    apply lookup_lt_Some in Hq. lia. }
  split; [done|]. split; [done|]. split; [done|]. split; [done|].
  split; [|split].
  - intros [Howned _].
    destruct (Howned _ _ Hheld) as (sid' & [entry Hentry] & Hname).
    assert (sid' = sid) as ->; [|congruence].
    unfold process_attr_of in Hname.
    destruct (String.eqb (output_type o) "hls"); destruct Hname as [Hname|Hname].
    + symmetry. by apply hls_process_inj.
    + by apply hls_dash_apart in Hname.
    + symmetry in Hname. by apply hls_dash_apart in Hname.
    + symmetry. by apply dash_process_inj.
  - by apply remove_stream_absent.
  - intros stream_ids. unfold shutdown.
    apply (for_each_invariant
             (fun st =>
                active_streams st !! sid = None
                /\ (forall name,
                      attributes st !! name = Some (length (processes s)) ->
                      name = process_attr_of o sid)
                /\ running <$> processes st !! length (processes s)
                   = Some true)
             stream_ids (remove_stream env) s2); [|done].
    intros id st (? & ? & ?). by apply remove_stream_keeps_orphan.
Qed.

End RemovalInsideFrame.

(** ** Frames from GStreamer buffers *)

Lemma reshape_image bytes height width frame :
  reshape (frombuffer bytes) (height, width, 3) = Some frame ->
  tobytes frame = bytes
  /\ exists rows cols,
       shape frame = [rows; cols; 3]
       /\ 0 <= rows /\ 0 <= cols
       /\ rows * cols * 3 = Z.of_nat (length bytes)
       /\ (height < 0 \/ height = rows) /\ (width < 0 \/ width = cols)
       /\ (0 <= height \/ 0 <= width).
Proof.
  assert (Hinfer : forall known,
            0 <= known ->
            (known * (3 * 1) =? 0)
            || negb (Z.of_nat (length bytes) mod (known * (3 * 1)) =? 0)
            = false ->
            0 <= Z.of_nat (length bytes) / (known * (3 * 1))
            /\ Z.of_nat (length bytes) / (known * (3 * 1)) * known * 3
               = Z.of_nat (length bytes)).
  { intros known Hlow Hfit.
    apply orb_false_iff in Hfit as [Hnz Hdiv].
    apply Z.eqb_neq in Hnz. apply negb_false_iff, Z.eqb_eq in Hdiv.
    apply Z.div_exact in Hdiv; [|done].
    assert (0 <= Z.of_nat (length bytes) / (known * (3 * 1)))
      by (apply Z.div_pos; lia).
    split; lia. }
  unfold reshape, frombuffer.
  destruct (forallb _ _); [|done].
  cbn [data List.filter fmap list_fmap].
  rewrite (Z.leb_antisym height 0), (Z.leb_antisym width 0).
  destruct (Z.ltb_spec height 0) as [Hh|Hh];
    destruct (Z.ltb_spec width 0) as [Hw|Hw];
    cbn [negb foldr app Z.leb Z.ltb Z.compare]; try done.
  - destruct (_ || _) eqn:Hfit; [done|].
    destruct (array_fits _); [|done]. intros [= <-].
    destruct (Hinfer width) as (? & ?); [done..|].
    split; [done|]. cbn [shape].
    eexists _, _. split; [reflexivity|].
    repeat split; try lia; first [by left|by right].
  - destruct (_ || _) eqn:Hfit; [done|].
    destruct (array_fits _); [|done]. intros [= <-].
    destruct (Hinfer height) as (? & ?); [done..|].
    split; [done|]. cbn [shape].
    eexists _, _. split; [reflexivity|].
    repeat split; try lia; first [by left|by right].
  - destruct (_ =? _) eqn:Hfit; [|done].
    destruct (array_fits _); [|done]. intros [= <-].
    apply Z.eqb_eq in Hfit. split; [done|].
    exists height, width. cbn [shape].
    repeat split; try lia; first [by left|by right].
Qed.

(** X14 ([gst_buffer_to_opencv]): a frame the conversion returns is a
    three-channel image that holds exactly the buffer's bytes: its shape is
    [rows; cols; 3] with [rows * cols * 3] the number of bytes, each caps
    dimension is that of the frame or a negative number, for which numpy
    infers the dimension (one of the two at most), the buffer was mapped
    and has been unmapped. *)
Theorem gst_frame_is_image buffer caps frame mapped :
  gst_buffer_to_opencv buffer caps = (Some frame, mapped) ->
  mapped = false
  /\ map_succeeds buffer = true
  /\ tobytes frame = buffer_data buffer
  /\ exists caps_structure height width rows cols,
       structures caps !! 0%nat = Some caps_structure
       /\ height_value caps_structure = Some height
       /\ width_value caps_structure = Some width
       /\ shape frame = [rows; cols; 3]
       /\ 0 <= rows /\ 0 <= cols
       /\ rows * cols * 3 = Z.of_nat (length (buffer_data buffer))
       /\ (height < 0 \/ height = rows) /\ (width < 0 \/ width = cols)
       /\ (0 <= height \/ 0 <= width).
Proof.
  unfold gst_buffer_to_opencv.
  destruct (structures caps !! 0%nat) as [caps_structure|]; [|done].
  destruct (map_succeeds buffer); [|done]. cbn [negb].
  destruct (height_value caps_structure) as [height|] eqn:Hheight; [|done].
  destruct (width_value caps_structure) as [width|] eqn:Hwidth; [|done].
  destruct (reshape _ _) as [image|] eqn:Hreshape; [|done].
  intros [= -> <-].
  apply reshape_image in Hreshape
    as (Hbytes & rows & cols & Hshape & ? & ? & ? & Hh & Hw & Hone).
  split; [done|]. split; [done|]. split; [done|].
  by exists caps_structure, height, width, rows, cols.
Qed.

Lemma array_fits_image height width :
  0 <= height -> 0 <= width ->
  array_fits [height; width; 3] = true ->
  height <= NPY_MAX_INTP /\ width <= NPY_MAX_INTP.
Proof.
  intros Hh Hw. unfold array_fits, NPY_MAX_INTP. cbn [List.filter].
  destruct (Z.eqb_spec height 0) as [->|?];
    destruct (Z.eqb_spec width 0) as [->|?];
    cbn [negb foldr Z.eqb]; intros Hfits%Z.leb_le; nia.
Qed.

(** X15 ([gst_buffer_to_opencv]): with caps that give a height and a width
    (neither negative), the conversion returns a frame exactly when the
    buffer maps, holds [height * width * 3] bytes, and an array of these
    dimensions is not too big for numpy. A buffer that does not map gives
    no frame; in every other case there is no frame either and the buffer
    is left mapped, because the [reshape] raises before [buffer.unmap]. *)
Theorem gst_buffer_size_decides buffer caps caps_structure height width :
  structures caps !! 0%nat = Some caps_structure ->
  height_value caps_structure = Some height ->
  width_value caps_structure = Some width ->
  0 <= height -> 0 <= width ->
  gst_buffer_to_opencv buffer caps
  = if map_succeeds buffer
    then if (Z.of_nat (length (buffer_data buffer)) =? height * width * 3)
            && array_fits [height; width; 3]
         then (Some {| shape := [height; width; 3];
                       data := buffer_data buffer |}, false)
         else (None, true)
    else (None, false).
Proof.
  intros Hcaps Hheight Hwidth Hh Hw.
  unfold gst_buffer_to_opencv. rewrite Hcaps, Hheight, Hwidth.
  destruct (map_succeeds buffer); [|done]. cbn [negb].
  unfold reshape, frombuffer. cbn [data forallb List.filter].
  rewrite (Z.leb_antisym height 0), (Z.leb_antisym width 0).
  rewrite (proj2 (Z.ltb_ge height 0)), (proj2 (Z.ltb_ge width 0)) by lia.
  cbn [negb foldr Z.leb Z.ltb Z.compare andb].
  rewrite (proj2 (Z.leb_le (- 2 ^ 63) height)),
    (proj2 (Z.leb_le (- 2 ^ 63) width)) by lia.
  cbn [andb].
  replace (height * (width * (3 * 1)) =? Z.of_nat (length (buffer_data buffer)))
    with (Z.of_nat (length (buffer_data buffer)) =? height * width * 3)
    by (rewrite Z.eqb_sym; f_equal; lia).
  destruct (array_fits [height; width; 3]) eqn:Hfits.
  - apply array_fits_image in Hfits as [? ?]; [|done..].
    rewrite (proj2 (Z.leb_le height NPY_MAX_INTP)),
      (proj2 (Z.leb_le width NPY_MAX_INTP)) by done.
    cbn [andb]. rewrite andb_true_r.
    by destruct (_ =? _).
  - rewrite andb_false_r.
    destruct (_ && _); [|done]. by destruct (_ =? _).
Qed.

(** ** Start-up *)

Lemma update_items_snoc d items key value :
  Startup.update_items d (items ++ [(key, value)])
  = <[key := value]> (Startup.update_items d items).
Proof. unfold Startup.update_items. by rewrite foldl_app. Qed.

Lemma update_items_lookup d items key :
  Startup.update_items d items !! key
  = match Startup.dict items !! key with
    | Some value => Some value
    | None => d !! key
    end.
Proof.
  unfold Startup.dict.
  induction items as [|[k v] items IH] using rev_ind; [done|].
  rewrite !update_items_snoc.
  destruct (decide (k = key)) as [->|Hne].
  - by rewrite !lookup_insert_eq.
  - by rewrite !lookup_insert_ne.
Qed.

Lemma typed_default_config :
  Startup.typed Startup.default_config = Some default_config.
Proof. vm_compute. reflexivity. Qed.

Section StartupProperties.
Variable host : Startup.Host.

(** X16 ([load_config]): a configuration file that holds an object
    overrides the defaults one top-level key at a time. A key of the file
    takes the file's value whole (the last one, if the file repeats the
    key), so the defaults nested under it are gone; every other key keeps
    its default. *)
Theorem load_config_overrides_top_level_keys config_file items :
  Startup.path_exists host config_file = true ->
  Startup.json_load host config_file = Startup.Returns (Startup.JObj items) ->
  exists config,
    Startup.load_config host config_file = Startup.Returns config
    /\ forall key,
         config !! key
         = match Startup.dict items !! key with
           | Some value => Some value
           | None => Startup.default_config !! key
           end.
Proof.
  intros Hexists Hload. unfold Startup.load_config.
  rewrite Hexists, Hload. cbn.
  eexists. split; [reflexivity|].
  intros key. apply update_items_lookup.
Qed.

(** X17 ([load_config], [setup_models]): the merge is shallow. On a host
    with CUDA, a file whose ["processing_effects"] object leaves out
    ["ml_enhancement"] makes [setup_models] raise [KeyError], although
    [default_config] has the key. *)
Theorem partial_effects_lose_defaults config_file items effects device :
  Startup.GPU_AVAILABLE host = true ->
  Startup.path_exists host config_file = true ->
  Startup.json_load host config_file = Startup.Returns (Startup.JObj items) ->
  Startup.dict items !! "processing_effects" = Some (Startup.JObj effects) ->
  Startup.dict effects !! "ml_enhancement" = None ->
  (Startup.load_config host config_file
     ≫= fun config => Startup.setup_models host config device)
  = Startup.Raises (Startup.KeyError "ml_enhancement").
Proof.
  intros Hgpu Hexists Hload Heffects Hml.
  unfold Startup.load_config. rewrite Hexists, Hload. cbn.
  unfold Startup.setup_models, Startup.getitem. rewrite Hgpu.
  rewrite update_items_lookup, Heffects. cbn.
  unfold Startup.getitem. by rewrite Hml.
Qed.

(** X18 ([setup_models]): when [setup_models] returns, there is an
    enhancement model exactly when the host has CUDA, the configuration
    enables the enhancement and the loading did not raise; a loading that
    raises is swallowed. *)
Theorem setup_models_loads_iff config device models :
  Startup.setup_models host config device = Startup.Returns models ->
  is_Some (enhancement models)
  <-> Startup.GPU_AVAILABLE host = true
      /\ exists effects ml_enhancement enabled model,
           config !! "processing_effects" = Some effects
           /\ Startup.subscript effects "ml_enhancement"
              = Startup.Returns ml_enhancement
           /\ Startup.subscript ml_enhancement "enabled"
              = Startup.Returns enabled
           /\ Startup.truthy enabled = true
           /\ Startup.load_enhancement_model host device
              = Startup.Returns model.
Proof.
  unfold Startup.setup_models, Startup.getitem.
  destruct (Startup.GPU_AVAILABLE host).
  2: { intros [= <-]. cbn. split; [by intros [? [=]]|by intros [[=] _]]. }
  destruct (config !! "processing_effects") as [effects|]; [|done]. cbn.
  destruct (Startup.subscript effects "ml_enhancement")
    as [ml_enhancement|] eqn:Hml; [|done]. cbn.
  destruct (Startup.subscript ml_enhancement "enabled")
    as [enabled|] eqn:Henabled; [|done]. cbn.
  destruct (Startup.truthy enabled) eqn:Htruthy.
  - destruct (Startup.load_enhancement_model host device)
      as [model|] eqn:Hmodel; intros [= <-]; cbn.
    + split; [|by eauto]. intros _. split; [done|].
      by exists effects, ml_enhancement, enabled, model.
    + split; [by intros [? [=]]|].
      intros [_ (? & ? & ? & ? & [= <-] & Hml' & Henabled' & _ & [=])].
  - intros [= <-]. cbn. split; [by intros [? [=]]|].
    intros [_ (? & ? & ? & ? & [= <-] & Hml' & Henabled' & Htruthy' & _)].
    rewrite Hml in Hml'. injection Hml' as <-.
    rewrite Henabled in Henabled'. injection Henabled' as <-.
    congruence.
Qed.

(** X19 ([setup_models], [apply_effects]): on a host without CUDA
    [setup_models] never raises and never reads the configuration, and
    with the models it returns the enhancement stage of the effect chain
    is off for every configuration, also one that enables it. *)
Theorem cpu_only_never_enhances config device :
  Startup.GPU_AVAILABLE host = false ->
  exists models,
    Startup.setup_models host config device = Startup.Returns models
    /\ forall effects_config,
         stage_enabled effects_config models Enhancement = false.
Proof.
  intros Hgpu. unfold Startup.setup_models. rewrite Hgpu.
  eexists. split; [reflexivity|].
  intros effects_config. unfold stage_enabled. cbn.
  by rewrite andb_false_r.
Qed.

(** X20 ([__init__], [setup_gpu]): when [import torch] failed, the
    constructor never returns a processor: if the configuration loads and
    the executor is created, [setup_gpu] raises [NameError] on
    [torch.device('cpu')]. *)
Theorem init_without_torch_raises config_file :
  Startup.torch host = None ->
  (exists e, Startup.init host config_file = Startup.Raises e)
  /\ forall config,
       Startup.load_config host config_file = Startup.Returns config ->
       Startup.ThreadPoolExecutor
         (default (Startup.JInt 4) (config !! "max_workers"))
       = Startup.Returns tt ->
       Startup.init host config_file
       = Startup.Raises (Startup.NameError "torch").
Proof.
  intros Htorch.
  assert (Hgpu : forall config,
            Startup.setup_gpu host config
            = Startup.Raises (Startup.NameError "torch")).
  { intros config. unfold Startup.setup_gpu. rewrite Htorch.
    by destruct (_ && _). }
  unfold Startup.init. split.
  - destruct (Startup.load_config host config_file) as [config|e];
      [|by exists e]. cbn.
    destruct (Startup.ThreadPoolExecutor _) as [[]|e]; [|by exists e]. cbn.
    rewrite Hgpu. by eexists.
  - intros config -> Hexecutor. cbn. rewrite Hexecutor. cbn.
    by rewrite Hgpu.
Qed.

(** X21 ([__init__], [load_config], [setup_gpu], [setup_models]): without
    a configuration file, on a host where [torch] is imported and the
    device name can be read, the constructor returns a processor with the
    default configuration (the one of the effect chain), the device
    ['cuda'] exactly when CUDA is available, no enhancement model and an
    empty registry. *)
Theorem init_defaults config_file torch :
  Startup.path_exists host config_file = false ->
  Startup.torch host = Some torch ->
  (forall e, Startup.cuda_get_device_name torch <> Startup.Raises e) ->
  exists processor,
    Startup.init host config_file = Startup.Returns processor
    /\ Startup.config processor = Startup.default_config
    /\ Startup.typed (Startup.config processor) = Some default_config
    /\ Startup.device_of processor
       = (if Startup.GPU_AVAILABLE host then Startup.cuda else Startup.cpu)
    /\ enhancement (Startup.models processor) = None
    /\ Startup.state processor = initial_state.
Proof.
  intros Hexists Htorch Hname.
  unfold Startup.init, Startup.load_config. rewrite Hexists. cbn.
  unfold Startup.setup_gpu, Startup.setup_models. rewrite Htorch.
  change (default (Startup.JBool true)
            (Startup.default_config !! "gpu_enabled"))
    with (Startup.JBool true).
  change (Startup.getitem Startup.default_config "processing_effects"
            ≫= _)
    with (Startup.Returns {| enhancement := None |} : Startup.attempt Models).
  cbn [Startup.truthy]. rewrite andb_true_r.
  destruct (Startup.GPU_AVAILABLE host).
  - destruct (Startup.cuda_get_device_name torch) as [name|e] eqn:Hread;
      [|by destruct (Hname e)]. cbn.
    eexists. split; [reflexivity|].
    split; [reflexivity|]. split; [exact typed_default_config|]. done.
  - cbn. eexists. split; [reflexivity|].
    split; [reflexivity|]. split; [exact typed_default_config|]. done.
Qed.

End StartupProperties.

(** * The model at concrete inputs *)

#[local] Existing Instance sample_cv.

Example streaming_hls_process :
  attributes streaming_hls !! hls_process "s1" = Some 0%nat
  /\ running <$> processes streaming_hls !! 0%nat = Some true
  /\ stdin_received <$> processes streaming_hls !! 0%nat
     = Some [[10; 20; 30; 170; 200; 210]].
Proof. vm_compute. done. Qed.

(** With the HLS spawn failing, the DASH encoder still gets the frame and
    the WebRTC hook still gets its payload. *)
Example fan_out_after_failed_spawn :
  map (fun e : event =>
         match e.1 with
         | subprocess_Popen _ => (subprocess_Popen [], e.2)
         | _ => e
         end)
    (trace (output_frame default_config hls_spawn_fails "s1" sample_frame
              (registered [hls; dash; webrtc])).2)
  = [(os_makedirs "output/s1/hls", true);
     (subprocess_Popen [], false);
     (os_makedirs "output/s1/dash", true);
     (subprocess_Popen [], true);
     (stdin_write 0 [10; 20; 30; 170; 200; 210], true);
     (stdin_flush 0, true);
     (send_to_webrtc_client "s1" [10; 20; 30; 170; 200; 210], true)].
Proof. vm_compute. done. Qed.

Lemma apply_effects_fixed_order_witness :
  apply_effects default_config no_models sample_frame = Ok sample_frame.
Proof.
  apply (apply_effects_fixed_order default_config no_models sample_frame).
  intros []; reflexivity.
Defined.

Lemma sink_failure_isolated_witness :
  exists evss,
    (output_frame default_config hls_spawn_fails "s1" sample_frame
       (registered [hls; dash; webrtc])).1 = Ok tt
    /\ active_streams
         (output_frame default_config hls_spawn_fails "s1" sample_frame
            (registered [hls; dash; webrtc])).2
       = active_streams (registered [hls; dash; webrtc])
    /\ trace (output_frame default_config hls_spawn_fails "s1" sample_frame
                (registered [hls; dash; webrtc])).2
       = trace (registered [hls; dash; webrtc]) ++ concat evss
    /\ Forall2 (sink_attempt "s1" sample_frame)
         (default []
            (outputs <$>
               active_streams (registered [hls; dash; webrtc]) !! "s1"))
         evss.
Proof.
  refine (sink_failure_isolated default_config hls_spawn_fails
            (fun _ _ => eq_refl) sample_frame _ "s1" _).
  cbn. lia.
Defined.

Lemma remove_stream_tears_down_witness :
  exists evs_hls evs_dash,
    (remove_stream wait_times_out "s1" streaming_hls).1 = Ok tt
    /\ active_streams (remove_stream wait_times_out "s1" streaming_hls).2
       !! "s1" = None
    /\ active_streams (remove_stream wait_times_out "s1" streaming_hls).2
       = delete "s1" (active_streams streaming_hls)
    /\ attributes (remove_stream wait_times_out "s1" streaming_hls).2
       = delete (dash_process "s1")
           (delete (hls_process "s1") (attributes streaming_hls))
    /\ trace (remove_stream wait_times_out "s1" streaming_hls).2
       = trace streaming_hls ++ evs_hls ++ evs_dash
    /\ teardown_of (attributes streaming_hls !! hls_process "s1") evs_hls
    /\ teardown_of (attributes streaming_hls !! dash_process "s1") evs_dash
    /\ forall p,
         attributes streaming_hls !! hls_process "s1" = Some p
         \/ attributes streaming_hls !! dash_process "s1" = Some p ->
         is_Some (processes streaming_hls !! p) ->
         stopped (processes (remove_stream wait_times_out "s1"
                               streaming_hls).2) p.
Proof.
  apply (remove_stream_tears_down wait_times_out "s1" streaming_hls).
  eexists. vm_compute. reflexivity.
Defined.

(** On a timeout the process is killed. *)
Example remove_stream_kills_on_timeout :
  drop (length (trace streaming_hls))
    (trace (remove_stream wait_times_out "s1" streaming_hls).2)
  = [(stdin_close 0, true); (terminate 0, true); (wait 0 5, false);
     (kill 0, true)]
  /\ running <$>
       processes (remove_stream wait_times_out "s1" streaming_hls).2 !! 0%nat
     = Some false.
Proof. vm_compute. done. Qed.

(** C5, as stated, at a frame whose blur raises: treating the stage as a
    no-op would give the input frame and send it on, but [apply_effects]
    raises and [process_frame] sends nothing. *)
Lemma blur_failure_is_not_skipped :
  blur_stage even_blur sample_frame = Err cv2_error
  /\ forgiving_chain even_blur no_models
       (List.filter (stage_enabled even_blur no_models) stage_order)
       sample_frame = sample_frame
  /\ apply_effects even_blur no_models sample_frame = Err cv2_error
  /\ trace (process_frame even_blur no_models calm "s1" sample_frame
              (registered [webrtc])).2 = []
  /\ trace (process_frame default_config no_models calm "s1" sample_frame
              (registered [webrtc])).2
     = [(send_to_webrtc_client "s1" [10; 20; 30; 170; 200; 210], true)].
Proof. vm_compute. done. Qed.

(** With a model that raises, the chain returns the frame as it was. *)
Example enhancement_failure_returns_input :
  apply_effects
    (with_effects
       {| blur := {| blur_enabled := false; kernel_size := 15 |};
          edge_detection :=
            {| edge_enabled := false; threshold1 := 100; threshold2 := 200 |};
          color_filter := {| color_enabled := false; hue_shift := 0 |};
          ml_enhancement := {| ml_enabled := true; model := "esrgan" |} |})
    failing_models sample_frame
  = Ok sample_frame.
Proof. reflexivity. Qed.

Lemma stage_failure_drops_frame_witness :
  apply_effects even_blur no_models sample_frame = Err cv2_error
  /\ process_frame even_blur no_models calm "s1" sample_frame
       (registered [webrtc])
     = (Ok tt, registered [webrtc]).
Proof.
  apply (proj1 (stage_failure_drops_frame even_blur no_models calm "s1"
                  sample_frame (registered [webrtc]))
           [] Blur [] sample_frame cv2_error); reflexivity.
Defined.

(** C6, as stated, at a stream whose source delivers one frame and ends,
    and at one whose source does not open: in both cases the stream is
    still registered afterwards. *)
Lemma exhausted_stream_stays_registered :
  active_streams
    (process_with_opencv default_config no_models one_frame_camera
       "rtmp://camera/live" "s1" (registered [webrtc])).2 !! "s1"
  = active_streams (registered [webrtc]) !! "s1"
  /\ is_Some (active_streams (registered [webrtc]) !! "s1")
  /\ frames_read
       (process_with_opencv default_config no_models one_frame_camera
          "rtmp://camera/live" "s1" (registered [webrtc])).2 = 1%nat
  /\ process_with_opencv default_config no_models calm
       "rtmp://camera/live" "s1" (registered [webrtc])
     = (Ok tt, registered [webrtc]).
Proof. vm_compute. eauto. Qed.

Lemma pull_loop_keeps_registry_witness :
  (process_with_opencv default_config no_models one_frame_camera
     "rtmp://camera/live" "s1" (registered [webrtc])).1 = Ok tt
  /\ active_streams
       (process_with_opencv default_config no_models one_frame_camera
          "rtmp://camera/live" "s1" (registered [webrtc])).2
     = active_streams (registered [webrtc])
  /\ frames_read
       (process_with_opencv default_config no_models one_frame_camera
          "rtmp://camera/live" "s1" (registered [webrtc])).2
     = (frames_read (registered [webrtc])
        + length (frames (VideoCapture one_frame_camera "rtmp://camera/live")))%nat
  /\ last (trace (process_with_opencv default_config no_models
                    one_frame_camera "rtmp://camera/live" "s1"
                    (registered [webrtc])).2)
     = Some (cap_release, true).
Proof.
  apply (proj1 (proj2 (pull_loop_keeps_registry default_config no_models
                         one_frame_camera "rtmp://camera/live" "s1"
                         (registered [webrtc])))).
  - reflexivity.
  - repeat constructor.
  - eexists. vm_compute. reflexivity.
Defined.

(** C7, as stated, at a stream with a running HLS encoder: after the id is
    registered again the encoder of the replaced stream is still running,
    its pipe open, behind the same attribute. *)
Lemma encoder_survives_add_stream :
  running <$>
    processes (add_stream "s1" rtmp_input [webrtc] 5%Q streaming_hls).2
    !! 0%nat = Some true
  /\ stdin_closed <$>
       processes (add_stream "s1" rtmp_input [webrtc] 5%Q streaming_hls).2
       !! 0%nat = Some false
  /\ attributes (add_stream "s1" rtmp_input [webrtc] 5%Q streaming_hls).2
     !! hls_process "s1" = Some 0%nat
  /\ outputs <$>
       active_streams
         (add_stream "s1" rtmp_input [webrtc] 5%Q streaming_hls).2 !! "s1"
     = Some [webrtc].
Proof. vm_compute. done. Qed.

Lemma get_stream_stats_reads_witness :
  exists stats,
    (get_stream_stats "s1" 2%Q streaming_hls).1 = Ok (Some stats)
    /\ duration stats = (2 - 0)%Q
    /\ stats_frame_count stats = 0
    /\ fps stats = (inject_Z 0 / duration stats)%Q
    /\ stats_input_type stats = "rtmp"
    /\ output_types stats = ["hls"].
Proof.
  pose proof (proj2 (get_stream_stats_reads "s1" 2%Q streaming_hls)) as Hstats.
  change (active_streams streaming_hls !! "s1")
    with (Some {| input := rtmp_input; outputs := [hls];
                  start_time := 0%Q; frame_count := 0 |}) in Hstats.
  destruct Hstats as (stats & Hret & _ & Hduration & Hcount & _ & Hfps
                      & Hinput & Houtputs).
  exists stats. split; [done|]. split; [done|]. split; [done|].
  split; [|done].
  apply Hfps. rewrite Hduration. reflexivity.
Defined.

Lemma rotate_hue_pixels_witness :
  exists out,
    rotate_hue sample_frame 100 = Ok out
    /\ shape out = shape sample_frame
    /\ forall k : nat,
         data out !! (3 * k)%nat
         = hue_element 100 <$> data sample_frame !! (3 * k)%nat
         /\ data out !! (3 * k + 1)%nat = data sample_frame !! (3 * k + 1)%nat
         /\ data out !! (3 * k + 2)%nat = data sample_frame !! (3 * k + 2)%nat.
Proof. apply (rotate_hue_pixels sample_frame 1 2 100); [reflexivity|lia]. Defined.


(** ** The further properties at concrete inputs *)

Example streaming_hls_consistent : consistent streaming_hls.
Proof.
  apply process_frame_consistent, add_stream_consistent,
    initial_state_consistent.
Qed.

(** With the directory of the HLS sink not to be made, the frame reaches
    the WebRTC sink listed before it, and neither the DASH sink nor the
    WebRTC sink listed after it. *)
Example fan_out_after_failed_makedirs :
  output_frame default_config hls_makedirs_fails "s1" sample_frame
    (registered [webrtc; hls; dash; webrtc])
  = (Err OSError,
     {| active_streams := active_streams (registered [webrtc; hls; dash; webrtc]);
        attributes := ∅;
        processes := [];
        trace := [(send_to_webrtc_client "s1" [10; 20; 30; 170; 200; 210],
                   true);
                  (os_makedirs "output/s1/hls", false)] |}).
Proof. reflexivity. Qed.

Lemma makedirs_failure_cancels_fan_out_witness :
  exists evss,
    Forall2 (sink_attempt "s1" sample_frame) [webrtc] evss
    /\ (output_frame default_config hls_makedirs_fails "s1" sample_frame
          (registered [webrtc; hls; dash; webrtc])).1 = Err OSError
    /\ trace (output_frame default_config hls_makedirs_fails "s1"
                sample_frame (registered [webrtc; hls; dash; webrtc])).2
       = trace (registered [webrtc; hls; dash; webrtc]) ++ concat evss
         ++ [(os_makedirs "output/s1/hls", false)]
    /\ active_streams
         (output_frame default_config hls_makedirs_fails "s1" sample_frame
            (registered [webrtc; hls; dash; webrtc])).2
       = active_streams (registered [webrtc; hls; dash; webrtc]).
Proof.
  refine (makedirs_failure_cancels_fan_out default_config hls_makedirs_fails
            sample_frame _ "s1" (registered [webrtc; hls; dash; webrtc])
            {| input := rtmp_input; outputs := [webrtc; hls; dash; webrtc];
               start_time := 0%Q; frame_count := 0 |}
            [webrtc] hls [dash; webrtc] _ _ _ _ _).
  - cbn. lia.
  - reflexivity.
  - reflexivity.
  - left. reflexivity.
  - reflexivity.
  - reflexivity.
Defined.

Example streaming_hls_tracked : tracked streaming_hls.
Proof.
  intros name p Hname.
  change (attributes streaming_hls)
    with (<[hls_process "s1" := 0%nat]> (∅ : gmap string nat)) in Hname.
  destruct (decide (name = hls_process "s1")) as [->|Hne].
  - rewrite lookup_insert_eq in Hname. injection Hname as <-.
    vm_compute. eauto.
  - by rewrite lookup_insert_ne, lookup_empty in Hname.
Qed.

Lemma removal_inside_frame_orphans_encoder_witness :
  (output_frame_interrupted default_config calm "s1" sample_frame
     [call_remove_stream "s1"] streaming_hls).1 = Ok tt
  /\ active_streams orphaned !! "s1" = None
  /\ attributes orphaned !! process_attr_of hls "s1" = Some 1%nat
  /\ running <$> processes orphaned !! 1%nat = Some true
  /\ ~ consistent orphaned
  /\ remove_stream calm "s1" orphaned = (Ok tt, orphaned)
  /\ forall stream_ids,
       running <$> processes (shutdown calm stream_ids orphaned).2 !! 1%nat
       = Some true.
Proof.
  apply (removal_inside_frame_orphans_encoder default_config calm
           (fun _ _ => eq_refl) "s1" sample_frame hls
           {| input := rtmp_input; outputs := [hls];
              start_time := 0%Q; frame_count := 0 |}
           streaming_hls 1 2 [3]).
  - reflexivity.
  - reflexivity.
  - reflexivity.
  - left. reflexivity.
  - apply streaming_hls_tracked.
Defined.

Lemma reachable_consistent_witness : consistent streaming_hls.
Proof.
  apply (reachable_consistent default_config no_models calm streaming_hls).
  apply reachable_process_frame, reachable_add_stream, reachable_initial.
Defined.

Lemma shutdown_stops_everything_witness :
  (shutdown calm ["s1"] streaming_hls).1 = Ok tt
  /\ active_streams (shutdown calm ["s1"] streaming_hls).2 = ∅
  /\ attributes (shutdown calm ["s1"] streaming_hls).2 = ∅
  /\ forall p q,
       processes (shutdown calm ["s1"] streaming_hls).2 !! p = Some q ->
       running q = false.
Proof.
  apply (shutdown_stops_everything calm ["s1"] streaming_hls).
  - apply streaming_hls_consistent.
  - intros sid Hsid. destruct (decide (sid = "s1")) as [->|Hne].
    + apply list_elem_of_singleton. reflexivity.
    + exfalso. unfold streaming_hls in Hsid.
      rewrite keeps_process_frame in Hsid. cbn in Hsid.
      rewrite lookup_insert_ne, lookup_empty in Hsid by done.
      by destruct Hsid.
Defined.

Lemma shutdown_without_streams_witness :
  shutdown calm ["s2"; "s3"] streaming_hls = (Ok tt, streaming_hls).
Proof.
  apply (shutdown_without_streams calm ["s2"; "s3"] streaming_hls).
  intros sid Hsid.
  apply elem_of_cons in Hsid as [->|Hsid]; [reflexivity|].
  apply list_elem_of_singleton in Hsid as ->. reflexivity.
Defined.

Lemma remove_stream_spares_others_witness :
  active_streams (remove_stream calm "s1" streaming_hls).2 !! "s2"
  = active_streams streaming_hls !! "s2"
  /\ attributes (remove_stream calm "s1" streaming_hls).2 !! hls_process "s2"
     = attributes streaming_hls !! hls_process "s2"
  /\ attributes (remove_stream calm "s1" streaming_hls).2 !! dash_process "s2"
     = attributes streaming_hls !! dash_process "s2"
  /\ forall p,
       attributes streaming_hls !! hls_process "s1" <> Some p ->
       attributes streaming_hls !! dash_process "s1" <> Some p ->
       processes (remove_stream calm "s1" streaming_hls).2 !! p
       = processes streaming_hls !! p.
Proof.
  apply (remove_stream_spares_others calm "s1" "s2" streaming_hls).
  discriminate.
Defined.

Lemma encoder_spawned_once_witness :
  attributes (output_hls default_config calm "s1" sample_frame hls
                streaming_hls).2
  = attributes streaming_hls
  /\ length (processes (output_hls default_config calm "s1" sample_frame hls
                          streaming_hls).2)
     = length (processes streaming_hls)
  /\ args <$> processes (output_hls default_config calm "s1" sample_frame hls
                           streaming_hls).2 !! 0%nat
     = args <$> processes streaming_hls !! 0%nat
  /\ forall p', p' <> 0%nat ->
       processes (output_hls default_config calm "s1" sample_frame hls
                    streaming_hls).2 !! p'
       = processes streaming_hls !! p'.
Proof.
  apply (proj1 (encoder_spawned_once default_config calm "s1" sample_frame hls
                  streaming_hls 0%nat)).
  reflexivity.
Defined.


Lemma makedirs_failure_skips_later_sinks_witness :
  output_frame default_config hls_makedirs_fails "s1" sample_frame
    (registered [webrtc; hls; dash])
  = (Err OSError,
     log_event (os_makedirs "output/s1/hls", false)
       (for_each [webrtc]
          (deliver default_config hls_makedirs_fails "s1" sample_frame)
          (registered [webrtc; hls; dash])).2)
  /\ (apply_effects default_config no_models sample_frame = Ok sample_frame ->
      process_frame default_config no_models hls_makedirs_fails "s1"
        sample_frame (registered [webrtc; hls; dash])
      = (Ok tt,
         log_event (os_makedirs "output/s1/hls", false)
           (for_each [webrtc]
              (deliver default_config hls_makedirs_fails "s1" sample_frame)
              (registered [webrtc; hls; dash])).2)).
Proof.
  apply (makedirs_failure_skips_later_sinks default_config no_models
           hls_makedirs_fails "s1" sample_frame sample_frame
           {| input := rtmp_input; outputs := [webrtc; hls; dash];
              start_time := 0%Q; frame_count := 0 |}
           [webrtc] hls [dash] (registered [webrtc; hls; dash])).
  - reflexivity.
  - reflexivity.
  - left. reflexivity.
  - reflexivity.
  - reflexivity.
Defined.

Lemma process_frame_unregistered_witness :
  process_frame default_config no_models calm "s2" sample_frame
    (registered [hls])
  = (Ok tt, registered [hls]).
Proof.
  apply (process_frame_unregistered default_config no_models calm "s2"
           sample_frame (registered [hls])).
  reflexivity.
Defined.

Lemma stats_never_count_witness :
  stats_frame_count
    {| stats_stream_id := "s1"; duration := (2 - 0)%Q;
       stats_frame_count := 0; fps := (inject_Z 0 / (2 - 0))%Q;
       stats_input_type := "rtmp"; output_types := ["hls"] |} = 0
  /\ (fps {| stats_stream_id := "s1"; duration := (2 - 0)%Q;
             stats_frame_count := 0; fps := (inject_Z 0 / (2 - 0))%Q;
             stats_input_type := "rtmp"; output_types := ["hls"] |} == 0)%Q.
Proof.
  apply (stats_never_count default_config no_models calm streaming_hls
           "s1" 2%Q).
  - apply reachable_process_frame, reachable_add_stream, reachable_initial.
  - reflexivity.
Defined.

Lemma add_then_remove_witness :
  remove_stream calm "s2"
    (add_stream "s2" rtmp_input [hls; dash] 1%Q streaming_hls).2
  = (Ok tt, streaming_hls).
Proof.
  apply (add_then_remove calm "s2" rtmp_input [hls; dash] 1%Q streaming_hls).
  - apply streaming_hls_consistent.
  - reflexivity.
Defined.

Lemma capture_always_released_witness :
  (process_with_opencv default_config no_models one_frame_camera
     "rtmp://camera/live" "s1" (registered [webrtc])).1 = Ok tt
  /\ last (trace (process_with_opencv default_config no_models
                    one_frame_camera "rtmp://camera/live" "s1"
                    (registered [webrtc])).2)
     = Some (cap_release, true)
  /\ (frames_read (process_with_opencv default_config no_models
                     one_frame_camera "rtmp://camera/live" "s1"
                     (registered [webrtc])).2
      <= frames_read (registered [webrtc])
         + length (frames (VideoCapture one_frame_camera
                             "rtmp://camera/live")))%nat.
Proof.
  apply (capture_always_released default_config no_models one_frame_camera
           "rtmp://camera/live" "s1" (registered [webrtc])).
  reflexivity.
Defined.

Lemma gst_frame_is_image_witness :
  false = false
  /\ map_succeeds sample_buffer = true
  /\ tobytes sample_frame = buffer_data sample_buffer
  /\ exists caps_structure height width rows cols,
       structures inferring_caps !! 0%nat = Some caps_structure
       /\ height_value caps_structure = Some height
       /\ width_value caps_structure = Some width
       /\ shape sample_frame = [rows; cols; 3]
       /\ 0 <= rows /\ 0 <= cols
       /\ rows * cols * 3 = Z.of_nat (length (buffer_data sample_buffer))
       /\ (height < 0 \/ height = rows) /\ (width < 0 \/ width = cols)
       /\ (0 <= height \/ 0 <= width).
Proof.
  apply (gst_frame_is_image sample_buffer inferring_caps sample_frame false).
  reflexivity.
Defined.

Lemma gst_buffer_size_decides_witness :
  gst_buffer_to_opencv sample_buffer sample_caps
  = if map_succeeds sample_buffer
    then if (Z.of_nat (length (buffer_data sample_buffer)) =? 1 * 2 * 3)
            && array_fits [1; 2; 3]
         then (Some {| shape := [1; 2; 3];
                       data := buffer_data sample_buffer |}, false)
         else (None, true)
    else (None, false).
Proof.
  apply (gst_buffer_size_decides sample_buffer sample_caps
           {| width_value := Some 2; height_value := Some 1 |} 1 2).
  - reflexivity.
  - reflexivity.
  - reflexivity.
  - lia.
  - lia.
Defined.

(** Caps of no row and [2 ^ 62] columns, with a buffer of no bytes: the
    sizes agree, but numpy finds the array too big, and the buffer stays
    mapped. *)
Example empty_but_too_big :
  gst_buffer_to_opencv {| map_succeeds := true; buffer_data := [] |}
    {| structures := [{| width_value := Some (2 ^ 62);
                         height_value := Some 0 |}] |}
  = (None, true).
Proof. reflexivity. Qed.

Lemma load_config_overrides_top_level_keys_witness :
  exists config,
    Startup.load_config (sample_host (Some blur_only) (Some sample_torch))
      "config.json"
    = Startup.Returns config
    /\ forall key,
         config !! key
         = match Startup.dict
                   [("max_workers", Startup.JInt 8);
                    ("processing_effects",
                     Startup.JObj
                       [("blur",
                         Startup.JObj [("enabled", Startup.JBool true);
                                       ("kernel_size", Startup.JInt 5)])])]
                 !! key with
           | Some value => Some value
           | None => Startup.default_config !! key
           end.
Proof.
  apply (load_config_overrides_top_level_keys
           (sample_host (Some blur_only) (Some sample_torch)) "config.json").
  - reflexivity.
  - reflexivity.
Defined.

Lemma partial_effects_lose_defaults_witness :
  (Startup.load_config (sample_host (Some blur_only) (Some sample_torch))
     "config.json"
     ≫= fun config =>
          Startup.setup_models
            (sample_host (Some blur_only) (Some sample_torch))
            config Startup.cuda)
  = Startup.Raises (Startup.KeyError "ml_enhancement").
Proof.
  apply (partial_effects_lose_defaults
           (sample_host (Some blur_only) (Some sample_torch)) "config.json"
           [("max_workers", Startup.JInt 8);
            ("processing_effects",
             Startup.JObj
               [("blur",
                 Startup.JObj [("enabled", Startup.JBool true);
                               ("kernel_size", Startup.JInt 5)])])]
           [("blur",
             Startup.JObj [("enabled", Startup.JBool true);
                           ("kernel_size", Startup.JInt 5)])]
           Startup.cuda).
  - reflexivity.
  - reflexivity.
  - reflexivity.
  - reflexivity.
  - reflexivity.
Defined.

Lemma setup_models_loads_iff_witness :
  is_Some (enhancement {| enhancement := None |})
  <-> Startup.GPU_AVAILABLE (sample_host None (Some sample_torch)) = true
      /\ exists effects ml_enhancement enabled model,
           Startup.default_config !! "processing_effects" = Some effects
           /\ Startup.subscript effects "ml_enhancement"
              = Startup.Returns ml_enhancement
           /\ Startup.subscript ml_enhancement "enabled"
              = Startup.Returns enabled
           /\ Startup.truthy enabled = true
           /\ Startup.load_enhancement_model
                (sample_host None (Some sample_torch)) Startup.cuda
              = Startup.Returns model.
Proof.
  apply (setup_models_loads_iff (sample_host None (Some sample_torch))
           Startup.default_config Startup.cuda {| enhancement := None |}).
  reflexivity.
Defined.

Lemma cpu_only_never_enhances_witness :
  exists models,
    Startup.setup_models
      (sample_host None
         (Some {| Startup.cuda_is_available := false;
                  Startup.cuda_get_device_name :=
                    Startup.Raises (Startup.OtherError "RuntimeError");
                  Startup.enhancer_to := Startup.enhancer_to sample_torch |}))
      Startup.default_config Startup.cpu
    = Startup.Returns models
    /\ forall effects_config,
         stage_enabled effects_config models Enhancement = false.
Proof.
  apply (cpu_only_never_enhances
           (sample_host None
              (Some {| Startup.cuda_is_available := false;
                       Startup.cuda_get_device_name :=
                         Startup.Raises (Startup.OtherError "RuntimeError");
                       Startup.enhancer_to :=
                         Startup.enhancer_to sample_torch |}))
           Startup.default_config Startup.cpu).
  reflexivity.
Defined.

Lemma init_without_torch_raises_witness :
  (exists e,
     Startup.init (sample_host None None) "config.json" = Startup.Raises e)
  /\ forall config,
       Startup.load_config (sample_host None None) "config.json"
       = Startup.Returns config ->
       Startup.ThreadPoolExecutor
         (default (Startup.JInt 4) (config !! "max_workers"))
       = Startup.Returns tt ->
       Startup.init (sample_host None None) "config.json"
       = Startup.Raises (Startup.NameError "torch").
Proof.
  apply (init_without_torch_raises (sample_host None None) "config.json").
  reflexivity.
Defined.

Lemma init_defaults_witness :
  exists processor,
    Startup.init (sample_host None (Some sample_torch)) "config.json"
    = Startup.Returns processor
    /\ Startup.config processor = Startup.default_config
    /\ Startup.typed (Startup.config processor) = Some default_config
    /\ Startup.device_of processor
       = (if Startup.GPU_AVAILABLE (sample_host None (Some sample_torch))
          then Startup.cuda else Startup.cpu)
    /\ enhancement (Startup.models processor) = None
    /\ Startup.state processor = initial_state.
Proof.
  apply (init_defaults (sample_host None (Some sample_torch)) "config.json"
           sample_torch).
  - reflexivity.
  - reflexivity.
  - intros e. discriminate.
Defined.
